(** * The image service of [app/main.py]

    A shallow embedding of the five route handlers ([create_image],
    [delete_image], [get_album], [get_starred], [set_starred]) over an
    explicit state: the [image] table, the files of [IMAGES_DIR], and the
    ORM session that a request works through.  Handlers are written in a
    small state-and-exception monad so that each line of a handler is one
    line of its model.  Around them: the routes of the application with the
    router that picks one, and the functions of [test_client.py] with the
    requests they send.

    Integers are Python's on the side of the handlers and SQLite's in the
    table: a handler takes any integer, the table holds integers of 64 bits,
    and binding an integer that does not fit as a parameter of a statement
    raises [OverflowError]. *)

From stdpp Require Import gmap strings list.
From Stdlib Require Import ZArith Ascii Strings.Byte.
From Stdlib Require DecimalString.
Local Open Scope Z_scope.

(** ** Python strings *)

Module PyStr.

(** [s.startswith(p)] *)
Definition startswith (s p : string) : bool := String.prefix p s.

(** [s.split(sep)] for a separator of one character.  The result is
    never empty: a string without the separator is returned whole. *)
Fixpoint split (sep : Ascii.ascii) (s : string) : list string :=
  match s with
  | EmptyString => [EmptyString]
  | String c rest =>
      if Ascii.eqb c sep then EmptyString :: split sep rest
      else match split sep rest with
           | [] => [String c EmptyString]
           | w :: ws => String c w :: ws
           end
  end.

(** [sep in s] *)
Fixpoint contains (sep : Ascii.ascii) (s : string) : bool :=
  match s with
  | EmptyString => false
  | String c rest => Ascii.eqb c sep || contains sep rest
  end.

End PyStr.

(** ** Data model *)

(** [class Image(ImageBase, table=True)]: an instance held by Python.  [id]
    is [None] until the row has been inserted. *)
Module Image.
Record t := mk {
  id : option Z;
  album : Z;
  starred : bool;
  filepath : option string
}.
End Image.

(** A stored row of the [image] table.  [id] is the primary key, so it is
    never NULL in a stored row; [filepath] is a nullable column. *)
Module Row.
Record t := mk {
  id : Z;
  album : Z;
  starred : bool;
  filepath : option string
}.
End Row.

(** [class ImagePublic(ImageBase)]: what the routes with a
    [response_model] send back. *)
Module ImagePublic.
Record t := mk {
  id : Z;
  album : Z;
  starred : bool
}.
End ImagePublic.

(** [fastapi.UploadFile] *)
Record UploadFile := {
  filename : option string;
  content_type : option string;
  file : list byte
}.

(** [fastapi.responses.FileResponse(path, media_type=...)] *)
Record FileResponse := {
  path : string;
  media_type : string
}.

Definition IMAGES_DIR : string := "./images".

(** ** Exceptions and effects *)

Inductive exn :=
| HTTPException (status_code : Z) (detail : string)
| AttributeError
| IndexError
| OSError
| OverflowError
| OperationalError
| UnmappedInstanceError
| InvalidRequestError
| ResponseValidationError.

Inductive result (A : Type) :=
| Return (a : A)
| Raise (e : exn).
Arguments Return {A} a.
Arguments Raise {A} e.

(** The status line a client sees: FastAPI answers an [HTTPException] with
    its status code and anything else that escapes a handler with 500. *)
Definition status {A} (r : result A) : Z :=
  match r with
  | Return _ => 200
  | Raise (HTTPException code _) => code
  | Raise _ => 500
  end.

(** What happened to the outside world, oldest first. *)
Inductive event :=
| FileWrite (p : string)
| SqlInsert (pk : Z)
| SqlUpdate (pk : Z)
| SqlDelete (pk : Z).

(** References to [Image] instances are indices into the session's
    [objects]; a Python variable holds a reference or [None]. *)
Definition ref := nat.
Definition pyref := option ref.

(** Changes the session has recorded and not yet flushed. *)
Inductive work :=
| Insert (l : ref)
| Update (l : ref)
| Delete (l : ref).

(** SQLite keeps an integer in 64 bits, signed; Python's integers have no
    bound.  An integer that does not fit makes [sqlite3] raise
    [OverflowError] when it is bound as a parameter of a statement. *)
Definition int64 (z : Z) : bool := (- (2 ^ 63) <=? z) && (z <? 2 ^ 63).
Arguments int64 : simpl never.

(** A row the table can hold: both of its integer columns fit. *)
Definition storable (r : Row.t) : bool :=
  int64 (Row.id r) && int64 (Row.album r).

(** What outlives a request: the database, the files of [IMAGES_DIR], and
    the trace of what was done to either. *)
Record World := mkWorld {
  database : list Row.t;
  files : gmap string (list byte);
  log : list event
}.

(** The rows of the [image] table, in the order they were inserted.  [id]
    and [album] are INTEGER columns: a record that does not fit them is not
    a row SQLite can hold, and is not a row of the table. *)
Definition table (w : World) : list Row.t :=
  List.filter storable (database w).
Arguments table : simpl never.

(** [sqlmodel.Session]: the instances loaded or created through it and its
    unit of work.  Two references to the row of one primary key are the
    same index (the identity map), so a change made through one name is
    seen through the other. *)
Record Session := mkSession {
  objects : list Image.t;
  pending : list work
}.

Record State := mkState {
  world : World;
  session : Session
}.

Definition M (A : Type) : Type := State -> result A * State.

Definition ret {A} (a : A) : M A := fun st => (Return a, st).

Definition raise {A} (e : exn) : M A := fun st => (Raise e, st).

Definition bind {A B} (k : A -> M B) (m : M A) : M B :=
  fun st =>
    match m st with
    | (Return a, st') => k a st'
    | (Raise e, st') => (Raise e, st')
    end.

(** [x ← m; k] and [m;; k] are stdpp's notations for [bind]. *)
#[global] Instance M_ret : MRet M := @ret.
#[global] Instance M_bind : MBind M := @bind.

(** [try: body except Exception: handler].  Every constructor of [exn] is a
    subclass of [Exception], [HTTPException] included. *)
Definition try_except_Exception {A} (body handler : M A) : M A :=
  fun st =>
    match body st with
    | (Return a, st') => (Return a, st')
    | (Raise _, st') => handler st'
    end.

Definition with_table (t : list Row.t) (w : World) : World :=
  mkWorld t (files w) (log w).
Definition with_files (f : gmap string (list byte)) (w : World) : World :=
  mkWorld (database w) f (log w).
Definition logged (e : event) (w : World) : World :=
  mkWorld (database w) (files w) (log w ++ [e]).
Definition with_world (w : World) (st : State) : State :=
  mkState w (session st).
Definition with_objects (o : list Image.t) (st : State) : State :=
  mkState (world st) (mkSession o (pending (session st))).
Definition with_pending (p : list work) (st : State) : State :=
  mkState (world st) (mkSession (objects (session st)) p).

(** [get_session]: every request gets a session of its own, closed when
    the handler is left, whether it returned or raised. *)
Definition open_session (w : World) : State :=
  mkState w (mkSession [] []).

Definition request {A} (handler : M A) (w : World) : result A * World :=
  let '(r, st) := handler (open_session w) in (r, world st).

(** ** The query builder *)

Inductive column := Album | Starred.

(** The value SQLite holds in a column; a Boolean column holds 0 or 1. *)
Definition column_value (c : column) (r : Row.t) : Z :=
  match c with
  | Album => Row.album r
  | Starred => Z.b2z (Row.starred r)
  end.

(** The Python values that a handler hands to [.where(...)]: a comparison
    of a class attribute with a value ([Image.album == album_id], an SQL
    expression object) or one of Python's own [True] and [False]. *)
Inductive pyexpr :=
| BinaryExpression (c : column) (v : Z)
| PyBool (b : bool).

(** [bool(e)], which [and] applies to its first operand.  SQLAlchemy gives
    an [==] expression a truth value by comparing the hashes of its two
    operands; here they are a column and a bound parameter, two different
    objects, so the expression is falsy whatever the rows hold. *)
Definition py_bool (e : pyexpr) : bool :=
  match e with
  | BinaryExpression _ _ => false
  | PyBool b => b
  end.

(** [a and b]: [a] when [a] is falsy, else [b]. *)
Definition py_and (a b : pyexpr) : pyexpr :=
  if py_bool a then b else a.

(** [Image.c is True]: object identity, and a class attribute is not the
    object [True]. *)
Definition attribute_is_True (c : column) : pyexpr := PyBool false.

(** Whether a row satisfies a criterion once it is part of a WHERE clause;
    a Python Boolean is coerced to the SQL constant. *)
Definition holds (r : Row.t) (e : pyexpr) : bool :=
  match e with
  | BinaryExpression c v => column_value c r =? v
  | PyBool b => b
  end.

(** [sqlmodel.select(Image)] and the methods chained on it. *)
Record Select := mkSelect {
  criteria : list pyexpr;
  offset_rows : nat;
  limit_rows : option nat
}.

Definition select_Image : Select := mkSelect [] 0%nat None.

Definition where_ (e : pyexpr) (s : Select) : Select :=
  mkSelect (criteria s ++ [e]) (offset_rows s) (limit_rows s).

(** [.filter_by(col=value, ...)]: one equality per keyword, all of them
    required. *)
Definition filter_by (kw : list (column * Z)) (s : Select) : Select :=
  mkSelect (criteria s ++ map (fun '(c, v) => BinaryExpression c v) kw)
           (offset_rows s) (limit_rows s).

Definition offset (n : nat) (s : Select) : Select :=
  mkSelect (criteria s) n (limit_rows s).

Definition limit (n : nat) (s : Select) : Select :=
  mkSelect (criteria s) (offset_rows s) (Some n).

(** The integers a statement binds as parameters: the right-hand sides of
    its comparisons.  A Python Boolean among the criteria is rendered as a
    constant, and the OFFSET and LIMIT of the handlers are 0 and 10. *)
Definition parameters (s : Select) : list Z :=
  flat_map (fun e => match e with
                     | BinaryExpression _ v => [v]
                     | PyBool _ => []
                     end)
           (criteria s).

(** The rows a statement selects, in the order the table is scanned:
    WHERE, then OFFSET, then LIMIT. *)
Definition matches (s : Select) (r : Row.t) : bool :=
  forallb (holds r) (criteria s).

Definition rows_of (s : Select) (t : list Row.t) : list Row.t :=
  let selected := drop (offset_rows s) (List.filter (matches s) t) in
  match limit_rows s with
  | Some n => take n selected
  | None => selected
  end.

(** ** The table *)

(** The key SQLite gives a row inserted without one: one more than the
    largest key in use, 1 in an empty table.  That holds as long as the
    largest key is not the largest integer of 64 bits; [flush_one] says what
    the model does with a table that has come that far. *)
Definition next_id (t : list Row.t) : Z :=
  match Row.id <$> t with
  | [] => 1
  | i :: ids => 1 + foldr Z.max i ids
  end.

Definition get_row (pk : Z) (t : list Row.t) : option Row.t :=
  List.find (fun r => Row.id r =? pk) t.

(** [UPDATE image SET starred = v WHERE id = pk] *)
Definition update_starred (pk : Z) (v : bool) (t : list Row.t) : list Row.t :=
  map (fun r => if Row.id r =? pk
                then Row.mk (Row.id r) (Row.album r) v (Row.filepath r)
                else r) t.

(** [DELETE FROM image WHERE id = pk] *)
Definition delete_row (pk : Z) (t : list Row.t) : list Row.t :=
  List.filter (fun r => negb (Row.id r =? pk)) t.

(** The primary-key constraint of the table. *)
Definition pk_ok (t : list Row.t) : Prop := NoDup (Row.id <$> t).

(** ** The session *)

Definition Image_of_row (r : Row.t) : Image.t :=
  Image.mk (Some (Row.id r)) (Row.album r) (Row.starred r) (Row.filepath r).

(** The identity map: the instance, if any, that already stands for the
    row with key [pk] in this session. *)
Definition identity_map (pk : Z) (objs : list Image.t) : pyref :=
  fst <$> list_find (fun o => Image.id o = Some pk) objs.

(** Turning a fetched row into an instance: the one the session already
    holds for that key, else a new one. *)
Definition instance_of (r : Row.t) : M ref :=
  fun st =>
    let objs := objects (session st) in
    match identity_map (Row.id r) objs with
    | Some l => (Return l, st)
    | None => (Return (length objs), with_objects (objs ++ [Image_of_row r]) st)
    end.

(** [Image(album=..., starred=..., filepath=...)]: a new instance, not
    yet known to the database. *)
Definition new_Image (album : Z) (starred : bool) (filepath : string) : M pyref :=
  fun st =>
    let objs := objects (session st) in
    (Return (Some (length objs)),
     with_objects (objs ++ [Image.mk None album starred (Some filepath)]) st).

(** Reading the attributes of [o]; on [None] this is an [AttributeError]. *)
Definition getattr (o : pyref) : M Image.t :=
  fun st =>
    match o with
    | None => (Raise AttributeError, st)
    | Some l =>
        match objects (session st) !! l with
        | Some obj => (Return obj, st)
        | None => (Raise InvalidRequestError, st)
        end
    end.

(** [session.get(Image, pk)]: the instance of the identity map if there is
    one, else a SELECT by primary key with [pk] bound as its parameter. *)
Definition session_get (pk : Z) : M pyref :=
  fun st =>
    match identity_map pk (objects (session st)) with
    | Some l => (Return (Some l), st)
    | None =>
        if negb (int64 pk)
        then (Raise OverflowError, st)
        else
          match get_row pk (table (world st)) with
          | Some r => (l ← instance_of r; ret (Some l)) st
          | None => (Return None, st)
          end
    end.

(** [session.exec(statement)]: the parameters are bound, then the result
    is a cursor over the selected rows; no handler has unflushed changes when
    it queries. *)
Definition session_exec (s : Select) : M (list Row.t) :=
  fun st =>
    if negb (forallb int64 (parameters s))
    then (Raise OverflowError, st)
    else (Return (rows_of s (table (world st))), st).

(** [result.first()] *)
Definition first (rows : list Row.t) : M pyref :=
  match rows with
  | [] => ret None
  | r :: _ => l ← instance_of r; ret (Some l)
  end.

(** Iterating a result, as the response serialiser does. *)
Fixpoint all (rows : list Row.t) : M (list pyref) :=
  match rows with
  | [] => ret []
  | r :: rest => l ← instance_of r; ls ← all rest; ret (Some l :: ls)
  end.

(** [o.sqlmodel_update({"starred": v})] *)
Definition sqlmodel_update (o : pyref) (v : bool) : M unit :=
  fun st =>
    match o with
    | None => (Raise AttributeError, st)
    | Some l =>
        let objs := objects (session st) in
        match objs !! l with
        | Some obj =>
            let obj' := Image.mk (Image.id obj) (Image.album obj) v (Image.filepath obj) in
            let st' := with_objects (<[l := obj']> objs) st in
            (Return tt,
             match Image.id obj with
             | Some _ => with_pending (pending (session st) ++ [Update l]) st'
             | None => st'
             end)
        | None => (Raise InvalidRequestError, st)
        end
    end.

(** [session.add(o)]: a new instance is scheduled for INSERT; one that
    already stands for a row is in the session already. *)
Definition session_add (o : pyref) : M unit :=
  fun st =>
    match o with
    | None => (Raise UnmappedInstanceError, st)
    | Some l =>
        match objects (session st) !! l with
        | Some obj =>
            (Return tt,
             match Image.id obj with
             | Some _ => st
             | None => with_pending (pending (session st) ++ [Insert l]) st
             end)
        | None => (Raise InvalidRequestError, st)
        end
    end.

(** [session.delete(o)] *)
Definition session_delete (o : pyref) : M unit :=
  fun st =>
    match o with
    | None => (Raise UnmappedInstanceError, st)
    | Some l => (Return tt, with_pending (pending (session st) ++ [Delete l]) st)
    end.

(** Flushing one recorded change to the table.  An INSERT binds the album
    of the new row and lets SQLite choose the key.  Once the largest key in
    use is the largest integer of 64 bits, SQLite tries keys at random and
    gives up with [database or disk is full] when it finds none unused; of
    what can happen then the model keeps the failure.  An UPDATE or a DELETE
    binds the key of an instance that was loaded from the table. *)
Definition flush_one (w : work) : M unit :=
  fun st =>
    let objs := objects (session st) in
    let t := table (world st) in
    match w with
    | Insert l =>
        match objs !! l with
        | Some obj =>
            let pk := next_id t in
            let r := Row.mk pk (Image.album obj) (Image.starred obj) (Image.filepath obj) in
            if negb (int64 (Image.album obj))
            then (Raise OverflowError, st)
            else if negb (int64 pk)
            then (Raise OperationalError, st)
            else
              (Return tt,
               with_objects (<[l := Image_of_row r]> objs)
                 (with_world (logged (SqlInsert pk) (with_table (t ++ [r]) (world st))) st))
        | None => (Return tt, st)
        end
    | Update l =>
        match objs !! l with
        | Some (Image.mk (Some pk) _ v _) =>
            (Return tt,
             with_world (logged (SqlUpdate pk) (with_table (update_starred pk v t) (world st))) st)
        | _ => (Return tt, st)
        end
    | Delete l =>
        match objs !! l with
        | Some (Image.mk (Some pk) _ _ _) =>
            (Return tt,
             with_world (logged (SqlDelete pk) (with_table (delete_row pk t) (world st))) st)
        | _ => (Return tt, st)
        end
    end.

(** Flushing the unit of work, oldest change first. *)
Fixpoint flush (ws : list work) : M unit :=
  match ws with
  | [] => ret tt
  | w :: ws => flush_one w;; flush ws
  end.

(** [session.commit()]: flush what is pending and commit; if a statement
    fails the transaction is rolled back and the exception goes on to the
    caller.  The commit also expires the instances; a later read reloads them
    with the values just flushed, so an instance and its row agree without a
    reload here. *)
Definition session_commit : M unit :=
  fun st =>
    match flush (pending (session st)) st with
    | (Return _, st') => (Return tt, with_pending [] st')
    | (Raise e, _) => (Raise e, with_pending [] st)
    end.

(** [session.refresh(o)]: reload the attributes of [o] from its row, found
    by the key the instance has from the table. *)
Definition session_refresh (o : pyref) : M unit :=
  fun st =>
    match o with
    | None => (Raise UnmappedInstanceError, st)
    | Some l =>
        let objs := objects (session st) in
        match objs !! l with
        | Some (Image.mk (Some pk) _ _ _) =>
            match get_row pk (table (world st)) with
            | Some r => (Return tt, with_objects (<[l := Image_of_row r]> objs) st)
            | None => (Raise InvalidRequestError, st)
            end
        | _ => (Raise InvalidRequestError, st)
        end
    end.

(** ** What a handler cannot decide *)

(** How the file system answers [open(filepath, "wb+")] and the write that
    follows: both succeed, the open fails, or the write fails after
    [written] bytes. *)
Inductive disk_answer :=
| DiskOk
| OpenFails
| WriteFails (written : nat).

(** The two inputs of an upload that come from the environment: the
    string [secrets.token_hex(8)] returns and the answer of the disk. *)
Record Env := mkEnv {
  token_hex : string;
  disk : disk_answer
}.

(** [with open(p, "wb+") as f_obj: f_obj.write(data)] *)
Definition open_write (d : disk_answer) (p : string) (data : list byte) : M unit :=
  fun st =>
    let w := world st in
    match d with
    | OpenFails => (Raise OSError, st)
    | WriteFails n =>
        (Raise OSError, with_world (with_files (<[p := take n data]> (files w)) w) st)
    | DiskOk =>
        (Return tt,
         with_world (logged (FileWrite p) (with_files (<[p := data]> (files w)) w)) st)
    end.

(** ** Python on optional values and lists *)

(** [s.startswith(p)] on an attribute that may be [None] *)
Definition str_startswith (s : option string) (p : string) : M bool :=
  match s with
  | None => raise AttributeError
  | Some s => ret (PyStr.startswith s p)
  end.

(** [s.split(sep)] on an attribute that may be [None] *)
Definition str_split (s : option string) (sep : Ascii.ascii) : M (list string) :=
  match s with
  | None => raise AttributeError
  | Some s => ret (PyStr.split sep s)
  end.

(** [l[i]] for [i >= 0] *)
Definition getitem {A} (l : list A) (i : nat) : M A :=
  match l !! i with
  | Some x => ret x
  | None => raise IndexError
  end.

(** [l[-1]] *)
Definition getitem_last {A} (l : list A) : M A :=
  match last l with
  | Some x => ret x
  | None => raise IndexError
  end.

(** The truth value of a variable holding an instance or [None]. *)
Definition truthy (o : pyref) : bool :=
  match o with
  | Some _ => true
  | None => false
  end.

(** [response_model=ImagePublic]: the returned instance is validated
    against [ImagePublic], whose [id] must be an integer. *)
Definition response_model (o : pyref) : M ImagePublic.t :=
  fun st =>
    match o with
    | None => (Raise ResponseValidationError, st)
    | Some l =>
        match objects (session st) !! l with
        | Some (Image.mk (Some pk) a s _) => (Return (ImagePublic.mk pk a s), st)
        | _ => (Raise ResponseValidationError, st)
        end
    end.

(** [response_model=list[ImagePublic]] *)
Fixpoint response_model_list (os : list pyref) : M (list ImagePublic.t) :=
  match os with
  | [] => ret []
  | o :: rest => p ← response_model o; ps ← response_model_list rest; ret (p :: ps)
  end.

(** ** The handlers *)

(** [POST /album/{album_id}] *)
Definition create_image (env : Env) (album_id : Z) (img_upload : UploadFile)
  : M ImagePublic.t :=
  (* Validate file's media type. *)
  try_except_Exception
    (is_image ← str_startswith (content_type img_upload) "image";
     if negb is_image
     then raise (HTTPException 406 "Invalid file type")
     else ret tt)
    (raise (HTTPException 400 "Invalid upload"));;
  (* Generate filename. *)
  parts ← str_split (content_type img_upload) "/"%char;
  file_ext ← getitem parts 1%nat;
  let filename := token_hex env +:+ "." +:+ file_ext in
  let filepath := IMAGES_DIR +:+ "/" +:+ filename in
  (* Determine whether this album already has a starred image. *)
  let statement :=
    where_ (py_and (BinaryExpression Album album_id) (attribute_is_True Starred))
           select_Image in
  starred_results ← session_exec statement;
  found ← first starred_results;
  let star := match found with None => true | Some _ => false end in
  (* Create new Image for db entry. *)
  new_image ← new_Image album_id star filepath;
  (* Save image file to disk. *)
  open_write (disk env) filepath (file img_upload);;
  (* Save to database. *)
  session_add new_image;;
  session_commit;;
  session_refresh new_image;;
  response_model new_image.

(** [DELETE /images/{image_id}] *)
Definition delete_image (image_id : Z) : M (list (string * bool)) :=
  image ← session_get image_id;
  if negb (truthy image)
  then raise (HTTPException 404 "Image not found")
  else
    session_delete image;;
    session_commit;;
    ret [("ok", true)].

(** [GET /album/{album_id}] *)
Definition get_album (album_id : Z) : M (list ImagePublic.t) :=
  images ← session_exec
             (where_ (BinaryExpression Album album_id)
                     (limit 10%nat (offset 0%nat select_Image)));
  instances ← all images;
  response_model_list instances.

(** [GET /starred/{album_id}] *)
Definition get_starred (album_id : Z) : M FileResponse :=
  (* Execute query for the album's starred Image. *)
  let statement := filter_by [(Album, album_id); (Starred, Z.b2z true)] select_Image in
  rows ← session_exec statement;
  img_entry ← first rows;
  match img_entry with
  | None => raise (HTTPException 404 "No starred image found")
  | Some _ =>
      entry ← getattr img_entry;
      (* Get file extension for media type. *)
      match Image.filepath entry with
      | None => raise AttributeError
      | Some filepath =>
          file_ext ← getitem_last (PyStr.split "."%char filepath);
          ret {| path := filepath; media_type := "image/" +:+ file_ext |}
      end
  end.

(** [PATCH /starred/{album_id}] *)
Definition set_starred (album_id image_id : Z) : M unit :=
  (* Retrieve the image to star to ensure it exists. *)
  image ← session_get image_id;
  not_found ← (if negb (truthy image) then ret true
               else target ← getattr image;
                    ret (negb (Image.album target =? album_id)));
  if not_found : bool
  then raise (HTTPException 404 "Image not found")
  else
    (* Retrieve currently starred image (if any). *)
    let statement := filter_by [(Album, album_id); (Starred, Z.b2z true)] select_Image in
    results ← session_exec statement;
    prev_starred ← first results;
    sqlmodel_update prev_starred false;;
    session_add prev_starred;;
    session_commit;;
    session_refresh prev_starred;;
    (* Star the image. *)
    sqlmodel_update image true;;
    session_add image;;
    (* Commit changes to database. *)
    session_commit;;
    session_refresh image.

(** ** Vocabulary of the properties *)

(** [r] is a starred image of album [a]. *)
Definition starred_in (a : Z) (r : Row.t) : bool :=
  (Row.album r =? a) && Row.starred r.

(** The starred rows of album [a], in table order: what
    [filter_by(album=a, starred=True)] selects. *)
Definition starred_rows (a : Z) (t : list Row.t) : list Row.t :=
  List.filter (starred_in a) t.

(** The row [r] with its flag set to [v]. *)
Definition set_flag (v : bool) (r : Row.t) : Row.t :=
  Row.mk (Row.id r) (Row.album r) v (Row.filepath r).

(** The rows of album [a], in table order. *)
Definition album_rows (a : Z) (t : list Row.t) : list Row.t :=
  List.filter (fun r => Row.album r =? a) t.

(** At most one image of album [a] is starred. *)
Definition at_most_one_starred (a : Z) (t : list Row.t) : Prop :=
  (length (starred_rows a t) <= 1)%nat.

(** What [ImagePublic] keeps of a row. *)
Definition public (r : Row.t) : ImagePublic.t :=
  ImagePublic.mk (Row.id r) (Row.album r) (Row.starred r).

(** Every instance of a session was loaded from the rows [source]. *)
Definition loaded (source : list Row.t) (objs : list Image.t) : Prop :=
  Forall (fun o => exists r, r ∈ source /\ o = Image_of_row r) objs.

(** [o] refers to an instance that stands for the key of [r]. *)
Definition stands_for (source : list Row.t) (objs : list Image.t)
    (o : pyref) (r : Row.t) : Prop :=
  exists l r', o = Some l /\ r' ∈ source /\ Row.id r' = Row.id r
               /\ objs !! l = Some (Image_of_row r').

(** ** Example requests *)

Module Example.
Definition jpeg (b : byte) : UploadFile :=
  {| filename := Some "photo.jpeg"; content_type := Some "image/jpeg"; file := [b] |}.

Definition text_plain : UploadFile :=
  {| filename := Some "notes.txt"; content_type := Some "text/plain"; file := [] |}.

Definition imagedata : UploadFile :=
  {| filename := Some "blob"; content_type := Some "imagedata"; file := [] |}.

Definition env (token : string) : Env := mkEnv token DiskOk.

Definition empty : World := mkWorld [] ∅ [].

(** Two uploads to album 3. *)
Definition two_images : World :=
  (request (create_image (env "00000000000000bb") 3 (jpeg x02))
     (request (create_image (env "00000000000000aa") 3 (jpeg x01)) empty).2).2.

(** ... and the first one, which was the starred one, deleted. *)
Definition unstarred_album : World :=
  (request (delete_image 1) two_images).2.

(** [two_images] after the second image has been starred. *)
Definition second_starred : World :=
  (request (set_starred 3 2) two_images).2.
End Example.

(** ** Sequences of requests *)

(** One request to one of the five routes, with what the environment
    contributes to it. *)
Inductive call :=
| CreateImage (env : Env) (album_id : Z) (img_upload : UploadFile)
| DeleteImage (image_id : Z)
| GetAlbum (album_id : Z)
| GetStarred (album_id : Z)
| SetStarred (album_id image_id : Z).

(** The world a request leaves behind, whatever it answered. *)
Definition after (c : call) (w : World) : World :=
  match c with
  | CreateImage env a up => (request (create_image env a up) w).2
  | DeleteImage i => (request (delete_image i) w).2
  | GetAlbum a => (request (get_album a) w).2
  | GetStarred a => (request (get_starred a) w).2
  | SetStarred a i => (request (set_starred a i) w).2
  end.

Definition after_all (cs : list call) (w : World) : World :=
  foldl (fun w c => after c w) w cs.

(** The service right after [on_startup] on a new database: the table
    exists and is empty, and so is [IMAGES_DIR]. *)
Definition initial : World := mkWorld [] ∅ [].

(** What the handlers keep of the stored data: keys are unique, no album
    has two starred images, and every row names a file that is on disk. *)
Definition healthy (w : World) : Prop :=
  pk_ok (table w)
  /\ (forall a, at_most_one_starred a (table w))
  /\ (forall r, r ∈ table w ->
        exists p, Row.filepath r = Some p /\ is_Some (files w !! p)).

(** The columns of a row that [set_starred] has no business with. *)
Definition fixed_columns (r : Row.t) : Z * Z * option string :=
  (Row.id r, Row.album r, Row.filepath r).

(** ** The routes of the application *)

Inductive method := GET | POST | PUT | PATCH | DELETE.

(** The JSON documents the application sends: [null], one image record, an
    array of them, [{"ok": true}], [{"detail": "..."}] and the
    [{"detail": [...]}] of a validation error. *)
Inductive json :=
| JNull
| JImage (p : ImagePublic.t)
| JImages (ps : list ImagePublic.t)
| JOk
| JDetail (d : string)
| JErrors.

(** The body of a response; [Documentation] is a page or document of the
    generated documentation. *)
Inductive content :=
| Json (j : json)
| FileBytes (bytes : list byte) (media : string)
| PlainText (s : string)
| Documentation.

Record Response := mkResponse {
  status_code : Z;
  body : content
}.

(** A request with one of the methods the two files use.  The path is
    held as its segments: [/album/3] is [["album"; "3"]], a trailing slash is
    a last empty segment, and [/] alone is [[""]]. *)
Record Request := mkRequest {
  req_method : method;
  req_path : list string;
  req_query : list (string * string);
  req_files : list (string * UploadFile)
}.

(** A segment of a route path: literal text or [{parameter}]. *)
Inductive part :=
| Lit (s : string)
| Param.

Inductive endpoint :=
| create_image_route
| delete_image_route
| get_album_route
| get_starred_route
| set_starred_route
| docs_route.

Record Route := mkRoute {
  route_method : method;
  route_path : list part;
  route_endpoint : endpoint
}.

(** The routes of [app]: those FastAPI adds to every application for its
    documentation, then the five decorated handlers in the order of the
    file. *)
Definition routes : list Route :=
  [ mkRoute GET [Lit "openapi.json"] docs_route;
    mkRoute GET [Lit "docs"] docs_route;
    mkRoute GET [Lit "docs"; Lit "oauth2-redirect"] docs_route;
    mkRoute GET [Lit "redoc"] docs_route;
    mkRoute POST [Lit "album"; Param] create_image_route;
    mkRoute DELETE [Lit "images"; Param] delete_image_route;
    mkRoute GET [Lit "album"; Param] get_album_route;
    mkRoute GET [Lit "starred"; Param] get_starred_route;
    mkRoute PATCH [Lit "starred"; Param] set_starred_route ].

#[global] Instance method_eq_dec : EqDecision method.
Proof. solve_decision. Defined.

(** A route path matches a request path segment by segment; a parameter
    takes one segment that is not empty.  The result is the text of the
    parameters. *)
Fixpoint match_path (parts : list part) (segments : list string)
  : option (list string) :=
  match parts, segments with
  | [], [] => Some []
  | Lit s :: parts, x :: segments =>
      if String.eqb s x then match_path parts segments else None
  | Param :: parts, x :: segments =>
      if String.eqb x "" then None
      else cons x <$> match_path parts segments
  | _, _ => None
  end.

(** Where the router sends a request. *)
Inductive routing :=
| Handle (e : endpoint) (params : list string)
| MethodNotAllowed
| RedirectTo (segments : list string)
| NotFound.

(** The first route whose path and method match; failing that, the first
    whose path matches. *)
Fixpoint find_route (rs : list Route) (m : method) (segments : list string)
    (partial : bool) : routing :=
  match rs with
  | [] => if partial then MethodNotAllowed else NotFound
  | r :: rs =>
      match match_path (route_path r) segments with
      | Some params =>
          if bool_decide (route_method r = m)
          then Handle (route_endpoint r) params
          else find_route rs m segments true
      | None => find_route rs m segments partial
      end
  end.

(** [path.rstrip("/")] on segments. *)
Fixpoint rstrip_slash (segments : list string) : list string :=
  match segments with
  | [] => []
  | x :: rest =>
      match rstrip_slash rest with
      | [] => if String.eqb x "" then [] else [x]
      | rest' => x :: rest'
      end
  end.

Definition ends_with_slash (segments : list string) : bool :=
  match last segments with
  | Some x => String.eqb x ""
  | None => false
  end.

(** The router: a request that no route takes is redirected when the path
    with its trailing slash added or removed is the path of some route, and
    is not found otherwise. *)
Definition route (m : method) (segments : list string) : routing :=
  match find_route routes m segments false with
  | NotFound =>
      if bool_decide (segments = [""])
      then NotFound
      else
        let other := if ends_with_slash segments
                     then rstrip_slash segments
                     else segments ++ [""] in
        if existsb (fun r => bool_decide (is_Some (match_path (route_path r) other)))
                   routes
        then RedirectTo other
        else NotFound
  | found => found
  end.

(** ** Answering a request *)

(** [{"detail": s}], the body of an error. *)
Definition detail (s : string) : content := Json (JDetail s).

(** The value of a query or form field: the last one sent under the
    name. *)
Definition field {A} (name : string) (fields : list (string * A)) : option A :=
  snd <$> last (List.filter (fun kv => String.eqb kv.1 name) fields).

(** The response to what a handler returned or raised: an [HTTPException]
    becomes its status and detail, any other exception a plain 500. *)
Definition respond {A} (render : A -> Response) (r : result A) : Response :=
  match r with
  | Return a => render a
  | Raise (HTTPException code d) => mkResponse code (detail d)
  | Raise _ => mkResponse 500 (PlainText "Internal Server Error")
  end.

(** The 422 of a parameter that is missing or not of its type. *)
Definition unprocessable : Response :=
  mkResponse 422 (Json JErrors).

(** Sending a [FileResponse]: the file has to exist when it is sent. *)
Definition send_file (w : World) (f : FileResponse) : Response :=
  match files w !! path f with
  | Some bytes => mkResponse 200 (FileBytes bytes (media_type f))
  | None => mkResponse 500 (PlainText "Internal Server Error")
  end.

Section Serving.
(** How a path or query parameter declared [int] is read from its text. *)
Variable int_param : string -> option Z.

(** One request served by the application.  [env] is what the environment
    contributes if the request turns out to be an upload. *)
Definition serve (env : Env) (req : Request) (w : World) : Response * World :=
  match route (req_method req) (req_path req) with
  | NotFound => (mkResponse 404 (detail "Not Found"), w)
  | MethodNotAllowed => (mkResponse 405 (detail "Method Not Allowed"), w)
  | RedirectTo _ => (mkResponse 307 (PlainText ""), w)
  | Handle docs_route _ => (mkResponse 200 Documentation, w)
  | Handle e params =>
      match int_param <$> head params with
      | Some (Some n) =>
          match e with
          | create_image_route =>
              match field "img_upload" (req_files req) with
              | Some up =>
                  let '(r, w') := request (create_image env n up) w in
                  (respond (fun p => mkResponse 200 (Json (JImage p))) r, w')
              | None => (unprocessable, w)
              end
          | delete_image_route =>
              let '(r, w') := request (delete_image n) w in
              (respond (fun _ => mkResponse 200 (Json JOk)) r, w')
          | get_album_route =>
              let '(r, w') := request (get_album n) w in
              (respond (fun ps => mkResponse 200 (Json (JImages ps))) r, w')
          | get_starred_route =>
              let '(r, w') := request (get_starred n) w in
              (respond (send_file w') r, w')
          | set_starred_route =>
              match int_param <$> field "image_id" (req_query req) with
              | Some (Some i) =>
                  let '(r, w') := request (set_starred n i) w in
                  (respond (fun _ => mkResponse 200 (Json JNull)) r, w')
              | _ => (unprocessable, w)
              end
          | docs_route => (mkResponse 200 Documentation, w)
          end
      | _ => (unprocessable, w)
      end
  end.
End Serving.

(** ** The test client *)

Inductive client_exn :=
| JSONDecodeError
| TypeError
| KeyError.

Inductive outcome (A : Type) :=
| Returned (a : A)
| Raised (e : client_exn).
Arguments Returned {A} a.
Arguments Raised {A} e.

(** What a client function prints or writes. *)
Inductive printed :=
| Message (s : string)
| StatusCode (n : Z)
| JsonDump (j : json)
| ResponseText (c : content)
| WriteFile (name : string) (c : content)
| System (command : string).

(** What [for row in data] binds [row] to: an element of an array of image
    records, or a key of an object. *)
Inductive row :=
| ImageRow (p : ImagePublic.t)
| Key (s : string).

(** [res.json()]; a body that is not a JSON document makes it raise. *)
Definition res_json (res : Response) : outcome json :=
  match body res with
  | Json j => Returned j
  | _ => Raised JSONDecodeError
  end.

(** [iter(data)] for [for row in data]. *)
Definition iterate (data : json) : outcome (list row) :=
  match data with
  | JNull => Raised TypeError
  | JImage _ => Returned [Key "album"; Key "starred"; Key "id"]
  | JImages ps => Returned (ImageRow <$> ps)
  | JOk => Returned [Key "ok"]
  | JDetail _ => Returned [Key "detail"]
  | JErrors => Returned [Key "detail"]
  end.

(** [row["id"]]: a string cannot be indexed by a string. *)
Definition getitem_id (r : row) : outcome Z :=
  match r with
  | ImageRow p => Returned (ImagePublic.id p)
  | Key _ => Raised TypeError
  end.

Section Client.
(** [f"{n}"] for an integer, and how the server reads an integer back. *)
Variable str_int : Z -> string.
Variable int_param : string -> option Z.
(** What the environment contributes to the requests that are uploads. *)
Variable env : Env.

(** [requests.request(...)]: the request is served, and sent again to the
    new path when the answer is a redirect. *)
Definition send (req : Request) (w : World) : Response * World :=
  match route (req_method req) (req_path req) with
  | RedirectTo segments =>
      serve int_param env
            (mkRequest (req_method req) segments (req_query req) (req_files req)) w
  | _ => serve int_param env req w
  end.

(** The requests the client builds, one per function. *)
Definition add_image_request (album_id : Z) (img : list byte) : Request :=
  mkRequest POST ["images"; "album"; str_int album_id] []
            [("img_upload",
              {| filename := Some "stand-in filename";
                 content_type := Some "image/jpeg";
                 file := img |})].

Definition get_album_images_request (album_id : Z) : Request :=
  mkRequest GET ["images"; "album"; str_int album_id] [] [].

Definition open_starred_image_request (album_id : Z) : Request :=
  mkRequest GET ["images"; "album"; str_int album_id; "starred"] [] [].

Definition open_image_by_id_request (image_id : Z) : Request :=
  mkRequest GET ["images"; str_int image_id] [] [].

Definition set_starred_image_request (album_id image_id : Z) : Request :=
  mkRequest PATCH ["images"; "album"; str_int album_id; "starred"]
            [("image_id", str_int image_id)] [].

Definition delete_image_request (image_id : Z) : Request :=
  mkRequest DELETE ["images"; str_int image_id] [] [].

(** [add_image(album_id, img_path)], [img] being the content of the file
    at [img_path]. *)
Definition add_image (album_id : Z) (img : list byte) (w : World)
  : outcome unit * list printed * World :=
  let '(res, w') := send (add_image_request album_id img) w in
  match res_json res with
  | Returned j => (Returned tt, [StatusCode (status_code res); JsonDump j], w')
  | Raised e => (Raised e, [StatusCode (status_code res)], w')
  end.

(** [get_album_images(album_id)] *)
Definition get_album_images (album_id : Z) (w : World) : outcome json * World :=
  let '(res, w') := send (get_album_images_request album_id) w in
  (res_json res, w').

(** [open_starred_image(album_id)] *)
Definition open_starred_image (album_id : Z) (w : World) : list printed * World :=
  let '(res, w') := send (open_starred_image_request album_id) w in
  ([WriteFile "starred.jpeg" (body res); System "open starred.jpeg"], w').

(** [open_image_by_id(image_id)] *)
Definition open_image_by_id (image_id : Z) (w : World) : list printed * World :=
  let '(res, w') := send (open_image_by_id_request image_id) w in
  ([WriteFile "image.jpeg" (body res); System "open image.jpeg"], w').

(** [set_starred_image(album_id, image_id)] *)
Definition set_starred_image (album_id image_id : Z) (w : World) : Z * World :=
  let '(res, w') := send (set_starred_image_request album_id image_id) w in
  (status_code res, w').

(** The client's [delete_image(image_id)] *)
Definition client_delete_image (image_id : Z) (w : World) : list printed * World :=
  let '(res, w') := send (delete_image_request image_id) w in
  (if bool_decide (status_code res <> 204)
   then [Message "There was a problem with deleting that image.";
         ResponseText (body res)]
   else [],
   w').

(** The loop of [remove_all_images]. *)
Fixpoint delete_each (rows : list row) (w : World)
  : outcome unit * list printed * World :=
  match rows with
  | [] => (Returned tt, [], w)
  | r :: rest =>
      match getitem_id r with
      | Raised e => (Raised e, [], w)
      | Returned image_id =>
          let '(out, w') := client_delete_image image_id w in
          let '(r', out', w'') := delete_each rest w' in
          (r', out ++ out', w'')
      end
  end.

(** [remove_all_images(album_id)] *)
Definition remove_all_images (album_id : Z) (w : World)
  : outcome unit * list printed * World :=
  let '(data, w') := get_album_images album_id w in
  match data with
  | Raised e => (Raised e, [], w')
  | Returned data =>
      match iterate data with
      | Raised e => (Raised e, [], w')
      | Returned rows => delete_each rows w'
      end
  end.
End Client.

(** ** Integers in paths *)

(** Decimal notation, as [str] writes an integer and as an [int] parameter
    is read. *)
Definition decimal (z : Z) : string :=
  DecimalString.NilZero.string_of_int (Z.to_int z).

Definition read_decimal (s : string) : option Z :=
  Z.of_int <$> DecimalString.NilZero.int_of_string s.

(** * Properties *)

(** ** Python strings *)

Example split_media_type : PyStr.split "/" "image/jpeg" = ["image"; "jpeg"].
Proof. reflexivity. Qed.

Example split_filepath :
  PyStr.split "." "./images/00000000000000aa.jpeg"
  = [""; "/images/00000000000000aa"; "jpeg"].
Proof. reflexivity. Qed.

Lemma split_nonempty sep s : PyStr.split sep s <> [].
Proof.
  destruct s as [|c s]; simpl; [done|].
  destruct (Ascii.eqb c sep); [done|]. by destruct (PyStr.split sep s).
Qed.

Lemma split_no_sep sep s : PyStr.contains sep s = false -> PyStr.split sep s = [s].
Proof.
  induction s as [|c s IH]; simpl; [done|].
  destruct (Ascii.eqb c sep); simpl; [done|].
  intros H. by rewrite (IH H).
Qed.

Lemma split_last sep s : is_Some (last (PyStr.split sep s)).
Proof.
  pose proof (split_nonempty sep s) as H.
  destruct (PyStr.split sep s) as [|x l] using rev_ind; [done|].
  rewrite last_snoc. eauto.
Qed.

(** ** The table *)

Lemma get_row_Some i t r : get_row i t = Some r -> r ∈ t /\ Row.id r = i.
Proof.
  unfold get_row. intros H. apply find_some in H as [Hin Heq].
  split; [by apply list_elem_of_In | by apply Z.eqb_eq].
Qed.

Lemma get_row_None i t : get_row i t = None <-> forall r, r ∈ t -> Row.id r <> i.
Proof.
  unfold get_row. split.
  - intros H r Hr. apply list_elem_of_In in Hr.
    by apply Z.eqb_neq, (find_none _ _ H r Hr).
  - intros H. destruct (List.find _ t) as [r|] eqn:E; [|done].
    apply find_some in E as [Hin Heq]. apply list_elem_of_In in Hin.
    apply Z.eqb_eq in Heq. by destruct (H r Hin).
Qed.

Lemma rows_of_starred a t :
  rows_of (filter_by [(Album, a); (Starred, Z.b2z true)] select_Image) t = starred_rows a t.
Proof.
  unfold rows_of, starred_rows. cbn. apply filter_ext. intros r.
  unfold matches, starred_in. cbn. by destruct (Row.starred r), (Row.album r =? a).
Qed.

Lemma get_row_is_Some i t : is_Some (get_row i t) <-> exists r, r ∈ t /\ Row.id r = i.
Proof.
  split.
  - intros [r Hr]. exists r. by apply get_row_Some.
  - intros (r & Hin & Hid). destruct (get_row i t) eqn:E; [eauto|].
    by destruct (proj1 (get_row_None i t) E r Hin).
Qed.

Lemma get_row_update_starred i j v t :
  get_row i (update_starred j v t) =
    (fun r => if Row.id r =? j then set_flag v r else r) <$> get_row i t.
Proof.
  unfold get_row, update_starred. induction t as [|x t IH]; [done|].
  cbn. destruct (Row.id x =? j) eqn:Ej; cbn; destruct (Row.id x =? i) eqn:Ei; cbn;
    rewrite ?Ej, ?IH; done.
Qed.

Lemma get_row_update_starred_Some i j v t r :
  get_row i t = Some r ->
  exists r', get_row i (update_starred j v t) = Some r' /\ Row.id r' = i.
Proof.
  intros E. rewrite get_row_update_starred, E. cbn.
  apply get_row_Some in E as [_ E]. eexists; split; [done|].
  by destruct (Row.id r =? j).
Qed.

(** ** Rows that fit the table *)

Lemma table_mkWorld t f l : table (mkWorld t f l) = List.filter storable t.
Proof. reflexivity. Qed.

Lemma table_with_table t w : table (with_table t w) = List.filter storable t.
Proof. reflexivity. Qed.

Lemma table_with_files f w : table (with_files f w) = table w.
Proof. reflexivity. Qed.

Lemma table_logged e w : table (logged e w) = table w.
Proof. reflexivity. Qed.

Lemma storable_table w r : r ∈ table w -> storable r = true.
Proof. intros Hr%list_elem_of_In. by apply filter_In in Hr as [_ ?]. Qed.

Lemma int64_table w r :
  r ∈ table w -> int64 (Row.id r) = true /\ int64 (Row.album r) = true.
Proof. intros Hr%storable_table. by apply andb_true_iff. Qed.

Lemma filter_storable_id t :
  (forall r, r ∈ t -> storable r = true) -> List.filter storable t = t.
Proof.
  intros H. apply forallb_filter_id, forallb_forall.
  intros r Hr%list_elem_of_In. by apply H.
Qed.

Lemma filter_storable_table w : List.filter storable (table w) = table w.
Proof. apply filter_storable_id, storable_table. Qed.

Lemma filter_storable_update j v t :
  List.filter storable (update_starred j v t)
  = update_starred j v (List.filter storable t).
Proof.
  unfold update_starred. induction t as [|x t IH]; cbn; [done|].
  assert (Hs : storable (if Row.id x =? j
                         then Row.mk (Row.id x) (Row.album x) v (Row.filepath x)
                         else x) = storable x)
    by by destruct (Row.id x =? j).
  rewrite Hs, IH. by destruct (storable x).
Qed.

Lemma filter_storable_delete i t :
  List.filter storable (delete_row i t) = delete_row i (List.filter storable t).
Proof.
  unfold delete_row. induction t as [|x t IH]; cbn; [done|].
  destruct (Row.id x =? i) eqn:Ei, (storable x) eqn:E; cbn; rewrite ?E, ?Ei, IH; done.
Qed.

Lemma filter_storable_insert t r :
  storable r = true ->
  List.filter storable (t ++ [r]) = List.filter storable t ++ [r].
Proof. intros H. rewrite List.filter_app. cbn. by rewrite H. Qed.

(** The table of a world that a handler has written: what was stored. *)
Lemma int64_iff z : int64 z = true <-> - (2 ^ 63) <= z < 2 ^ 63.
Proof. unfold int64. rewrite andb_true_iff, Z.leb_le, Z.ltb_lt. lia. Qed.

Lemma int64_storable pk a s f :
  int64 pk = true -> int64 a = true -> storable (Row.mk pk a s f) = true.
Proof. unfold storable. cbn. by intros -> ->. Qed.

Ltac stored :=
  repeat progress
    (rewrite ?table_mkWorld, ?table_logged, ?table_with_files, ?table_with_table,
       ?filter_storable_update, ?filter_storable_delete, ?filter_storable_table;
     rewrite ?filter_storable_insert by (by apply int64_storable)).

(** ** Running the handlers *)

(** Running a handler on a given state: the primitives of the session are
    unfolded and computed, the operations on the table stay folded. *)
Ltac run_cbn :=
  cbn [with_world with_objects with_pending with_table with_files logged
       world session objects pending database files log
       list_find fmap option_fmap option_map
       lookup list_lookup insert list_insert flush app length
       negb fst snd Image_of_row all response_model_list
       Image.id Image.album Image.starred Image.filepath
       Row.id Row.album Row.starred Row.filepath].

Ltac run :=
  repeat progress
    (unfold request, open_session, mbind, M_bind, bind, mret, M_ret, ret, raise,
       try_except_Exception, session_get, session_exec, first, instance_of,
       new_Image, getattr, sqlmodel_update, session_add, session_delete,
       session_commit, session_refresh, flush_one, response_model, open_write,
       getitem, getitem_last, str_split, str_startswith, truthy, identity_map;
     run_cbn;
     rewrite ?table_mkWorld, ?table_logged, ?table_with_files, ?table_with_table).

(** Two results that differ only in how the final world is written. *)
Ltac world_eq :=
  unfold logged, with_table, with_files; cbn [database files log]; stored;
  rewrite <- ?app_assoc; reflexivity.

(** The parameters of the statements the handlers build. *)
Lemma parameters_starred a :
  forallb int64 (parameters (filter_by [(Album, a); (Starred, Z.b2z true)] select_Image))
  = int64 a.
Proof. cbn. change (int64 1) with true. by rewrite andb_true_r. Qed.

Lemma parameters_create_image a :
  forallb int64
    (parameters (where_ (py_and (BinaryExpression Album a) (attribute_is_True Starred))
                        select_Image))
  = int64 a.
Proof. cbn. by rewrite andb_true_r. Qed.

Lemma parameters_get_album a :
  forallb int64
    (parameters (where_ (BinaryExpression Album a) (limit 10 (offset 0 select_Image))))
  = int64 a.
Proof. cbn. by rewrite andb_true_r. Qed.

Lemma set_starred_run a i w :
  request (set_starred a i) w =
    if negb (int64 i)
    then (Raise OverflowError, w)
    else
      match get_row i (table w) with
      | None => (Raise (HTTPException 404 "Image not found"), w)
      | Some r =>
          if negb (Row.album r =? a)
          then (Raise (HTTPException 404 "Image not found"), w)
          else
            match starred_rows a (table w) with
            | [] => (Raise AttributeError, w)
            | p :: _ =>
                (Return tt,
                 mkWorld (update_starred i true (update_starred (Row.id p) false (table w)))
                         (files w)
                         (log w ++ [SqlUpdate (Row.id p); SqlUpdate i]))
            end
      end.
Proof.
  unfold set_starred. run.
  destruct (int64 i) eqn:Hi64; run; [|done].
  destruct (get_row i (table w)) as [r|] eqn:E; run.
  2:{ done. }
  destruct (get_row_Some _ _ _ E) as [Hr Hi].
  destruct (Row.album r =? a) eqn:Ea; run.
  2:{ done. }
  apply Z.eqb_eq in Ea. destruct (int64_table _ _ Hr) as [_ Ha64]. rewrite Ea in Ha64.
  rewrite parameters_starred, Ha64. run.
  rewrite rows_of_starred.
  destruct (starred_rows a (table w)) as [|p rest] eqn:Es; run.
  { done. }
  assert (Hp : p ∈ table w).
  { apply list_elem_of_In. eapply (proj1 (filter_In _ _ _)). unfold starred_rows in Es.
    rewrite Es. by left. }
  stored.
  destruct (get_row (Row.id p) (table w)) as [p'|] eqn:Ep.
  2:{ by destruct (proj1 (get_row_None _ _) Ep p Hp). }
  destruct (get_row_update_starred_Some _ (Row.id p) false _ _ Ep) as (p1 & Ep1 & Hp1).
  destruct (get_row_update_starred_Some _ (Row.id p) false _ _ E) as (r1 & Er1 & Hr1).
  destruct (get_row_update_starred_Some _ i true _ _ Er1) as (r2 & Er2 & Hr2).
  destruct (decide (Some (Row.id r) = Some (Row.id p))) as [Heq|Hne]; run; stored.
  - injection Heq as Heq. subst i. rewrite Heq in *. rewrite Ep1. run.
    stored. rewrite Hp1, Er2. run. world_eq.
  - rewrite Ep1. run. stored. rewrite Hi, Er2. run. world_eq.
Qed.

Lemma delete_image_run i w :
  request (delete_image i) w =
    if negb (int64 i)
    then (Raise OverflowError, w)
    else
      match get_row i (table w) with
      | Some _ => (Return [("ok", true)],
                   mkWorld (delete_row i (table w)) (files w) (log w ++ [SqlDelete i]))
      | None => (Raise (HTTPException 404 "Image not found"), w)
      end.
Proof.
  unfold delete_image. run.
  destruct (int64 i) eqn:Hi64; run; [|done].
  destruct (get_row i (table w)) as [r|] eqn:E; run; [|done].
  apply get_row_Some in E as [_ <-]. world_eq.
Qed.

Lemma get_starred_run a w :
  request (get_starred a) w =
    if negb (int64 a)
    then (Raise OverflowError, w)
    else
      match starred_rows a (table w) with
      | [] => (Raise (HTTPException 404 "No starred image found"), w)
      | r :: _ =>
          match Row.filepath r with
          | None => (Raise AttributeError, w)
          | Some p =>
              match last (PyStr.split "." p) with
              | Some ext => (Return {| path := p; media_type := "image/" +:+ ext |}, w)
              | None => (Raise IndexError, w)
              end
          end
      end.
Proof.
  unfold get_starred. run. rewrite parameters_starred.
  destruct (int64 a); run; [|done]. rewrite rows_of_starred.
  destruct (starred_rows a (table w)) as [|r rest]; run; [done|].
  destruct (Row.filepath r) as [p|]; run; [|done].
  by destruct (last (PyStr.split "." p)).
Qed.

(** The statement [create_image] builds selects by album alone: [and]
    returns its first operand, the falsy [==] expression, and the test on
    [starred] never reaches the query. *)
Lemma rows_of_create_image a t :
  rows_of (where_ (py_and (BinaryExpression Album a) (attribute_is_True Starred))
                  select_Image) t
  = album_rows a t.
Proof.
  unfold rows_of, album_rows. cbn. apply filter_ext. intros r.
  unfold matches. cbn. by rewrite andb_true_r.
Qed.

Lemma foldr_max_bound (x : Z) (ids : list Z) :
  x <= foldr Z.max x ids /\ (forall y, y ∈ ids -> y <= foldr Z.max x ids).
Proof.
  induction ids as [|z ids [IH1 IH2]]; cbn.
  - split; [lia|]. by intros y ?%elem_of_nil.
  - split; [lia|]. intros y [->|Hy]%elem_of_cons; [lia|].
    specialize (IH2 y Hy). lia.
Qed.

Lemma next_id_above t r : r ∈ t -> Row.id r < next_id t.
Proof.
  unfold next_id. intros Hr.
  apply (list_elem_of_fmap_2 Row.id) in Hr.
  destruct (Row.id <$> t) as [|x ids]; [by apply elem_of_nil in Hr|].
  destruct (foldr_max_bound x ids) as [H1 H2].
  apply elem_of_cons in Hr as [->|Hr]; [lia|].
  specialize (H2 _ Hr). lia.
Qed.

Lemma get_row_app i t1 t2 :
  get_row i (t1 ++ t2) =
    match get_row i t1 with
    | Some r => Some r
    | None => get_row i t2
    end.
Proof.
  unfold get_row. induction t1 as [|x t1 IH]; cbn; [done|].
  by destruct (Row.id x =? i).
Qed.

Lemma get_row_fresh t r :
  Row.id r = next_id t -> get_row (next_id t) (t ++ [r]) = Some r.
Proof.
  intros Hid. rewrite get_row_app.
  destruct (get_row (next_id t) t) as [x|] eqn:E.
  - apply get_row_Some in E as [Hin Heq]. apply next_id_above in Hin. lia.
  - unfold get_row. cbn. by rewrite Hid, Z.eqb_refl.
Qed.

Lemma create_image_run env a up w :
  request (create_image env a up) w =
    match content_type up with
    | None => (Raise (HTTPException 400 "Invalid upload"), w)
    | Some ct =>
        if negb (PyStr.startswith ct "image")
        then (Raise (HTTPException 400 "Invalid upload"), w)
        else
          match PyStr.split "/" ct !! 1%nat with
          | None => (Raise IndexError, w)
          | Some ext =>
              let filepath := IMAGES_DIR +:+ "/" +:+ token_hex env +:+ "." +:+ ext in
              let star := match album_rows a (table w) with [] => true | _ => false end in
              if negb (int64 a)
              then (Raise OverflowError, w)
              else
                match disk env with
                | OpenFails => (Raise OSError, w)
                | WriteFails n =>
                    (Raise OSError,
                     with_files (<[filepath := take n (file up)]> (files w)) w)
                | DiskOk =>
                    let pk := next_id (table w) in
                    if negb (int64 pk)
                    then (Raise OperationalError,
                          logged (FileWrite filepath)
                                 (with_files (<[filepath := file up]> (files w)) w))
                    else
                      (Return (ImagePublic.mk pk a star),
                       mkWorld (table w ++ [Row.mk pk a star (Some filepath)])
                               (<[filepath := file up]> (files w))
                               (log w ++ [FileWrite filepath; SqlInsert pk]))
                end
          end
    end.
Proof.
  unfold create_image. run.
  destruct (content_type up) as [ct|]; run; [|done].
  destruct (PyStr.startswith ct "image"); run; [|done].
  destruct (PyStr.split "/" ct !! 1%nat) as [ext|]; run; [|done].
  rewrite parameters_create_image.
  destruct (int64 a) eqn:Ha64; run; [|done].
  rewrite rows_of_create_image.
  destruct (album_rows a (table w)) as [|r0 rest]; run.
  - destruct (disk env); run; [|done|done]. rewrite Ha64. run.
    destruct (int64 (next_id (table w))) eqn:Hpk; run; [|done].
    rewrite filter_storable_insert, filter_storable_table by by apply int64_storable.
    rewrite get_row_fresh by done. run. world_eq.
  - destruct (disk env); run; [|done|done]. rewrite Ha64. run.
    destruct (int64 (next_id (table w))) eqn:Hpk; run; [|done].
    rewrite filter_storable_insert, filter_storable_table by by apply int64_storable.
    rewrite get_row_fresh by done. run. world_eq.
Qed.

(** ** Loading rows into a session *)

Section Loading.
(** The rows a request may load. *)
Variable source : list Row.t.

Lemma stands_for_prefix objs objs' o r :
  objs `prefix_of` objs' -> stands_for source objs o r -> stands_for source objs' o r.
Proof.
  intros Hpre (l & r' & -> & Hin & Hid & Hl).
  exists l, r'. eauto using prefix_lookup_Some.
Qed.

Lemma instance_of_spec r st :
  r ∈ source -> loaded source (objects (session st)) ->
  exists l objs',
    instance_of r st = (Return l, with_objects objs' st)
    /\ objects (session st) `prefix_of` objs'
    /\ loaded source objs'
    /\ stands_for source objs' (Some l) r.
Proof.
  intros Hr Hl. unfold instance_of, identity_map.
  destruct (list_find _ (objects (session st))) as [[l o]|] eqn:E; cbn.
  - apply list_find_Some in E as (Hlook & Hid & _).
    exists l, (objects (session st)). split; [by destruct st as [? []]|].
    split; [done|]. split; [done|].
    pose proof (proj1 (Forall_lookup _ _) Hl _ _ Hlook) as (r' & Hr' & ->).
    exists l, r'. cbn in Hid. injection Hid as Hid. done.
  - eexists _, _. split; [done|]. split; [by apply prefix_app_r|].
    split.
    + apply Forall_app. split; [done|]. apply Forall_singleton. eauto.
    + exists (length (objects (session st))), r.
      split; [done|]. split; [done|]. split; [done|].
      by apply list_lookup_middle.
Qed.

Lemma all_spec rows : forall st,
  (forall r, r ∈ rows -> r ∈ source) -> loaded source (objects (session st)) ->
  exists os objs',
    all rows st = (Return os, with_objects objs' st)
    /\ objects (session st) `prefix_of` objs'
    /\ loaded source objs'
    /\ Forall2 (stands_for source objs') os rows.
Proof.
  induction rows as [|r rows IH]; intros st Hsub Hl.
  - exists [], (objects (session st)). split; [by destruct st as [? []]|].
    by repeat split.
  - destruct (instance_of_spec r st) as (l & objs1 & E1 & P1 & L1 & S1);
      [apply Hsub; by left | done |].
    destruct (IH (with_objects objs1 st)) as (os & objs2 & E2 & P2 & L2 & S2);
      [intros; apply Hsub; by right | done |].
    exists (Some l :: os), objs2.
    split.
    { cbn [all]. unfold mbind, M_bind, bind. rewrite E1.
      fold (@all rows). rewrite E2. reflexivity. }
    split; [by etrans|]. split; [done|].
    constructor; [|done]. eapply stands_for_prefix; [exact P2|exact S1].
Qed.

Lemma response_model_list_spec os rows st :
  Forall2 (stands_for source (objects (session st))) os rows ->
  exists ps,
    response_model_list os st = (Return ps, st)
    /\ Forall2 (fun p r => exists r', r' ∈ source /\ Row.id r' = Row.id r
                                      /\ p = public r') ps rows.
Proof.
  induction 1 as [|o r os rows (l & r' & -> & Hin & Hid & Hl) _ (ps & E & F)].
  - by exists [].
  - exists (public r' :: ps). split.
    + cbn [response_model_list].
      unfold mbind, M_bind, bind, response_model. rewrite Hl. cbn.
      fold response_model_list. by rewrite E.
    + constructor; eauto.
Qed.
End Loading.

(** Fetching the row of one key twice gives one instance: the second
    fetch finds the first in the identity map. *)
Lemma instance_of_twice r st :
  exists l st',
    (l1 ← instance_of r; l2 ← instance_of r; ret (l1, l2)) st = (Return (l, l), st').
Proof.
  unfold mbind, M_bind, bind, instance_of at 1.
  destruct (identity_map (Row.id r) (objects (session st))) as [l|] eqn:E.
  - exists l, st. unfold instance_of. by rewrite E.
  - eexists _, _. unfold instance_of, identity_map in *. cbn.
    destruct (list_find _ (objects (session st))) eqn:E'; [done|].
    rewrite list_find_app_r by done. cbn.
    rewrite decide_True by done. cbn. reflexivity.
Qed.

Lemma rows_of_get_album a t :
  rows_of (where_ (BinaryExpression Album a) (limit 10 (offset 0 select_Image))) t
  = take 10 (album_rows a t).
Proof.
  unfold rows_of, album_rows. cbn. f_equal. apply filter_ext. intros r.
  unfold matches. cbn. by rewrite andb_true_r.
Qed.

Lemma get_album_run a w :
  int64 a = true ->
  exists ps,
    request (get_album a) w = (Return ps, w)
    /\ Forall2 (fun p r => exists r', r' ∈ take 10 (album_rows a (table w))
                                      /\ Row.id r' = Row.id r /\ p = public r')
               ps (take 10 (album_rows a (table w))).
Proof.
  intros Ha64. set (rows := take 10 (album_rows a (table w))).
  destruct (all_spec rows rows (open_session w)) as (os & objs & E1 & _ & _ & S);
    [done | by constructor |].
  destruct (response_model_list_spec rows os rows (with_objects objs (open_session w)))
    as (ps & E2 & F); [done|].
  exists ps. split; [|done].
  unfold request, get_album, mbind, M_bind, bind, session_exec.
  rewrite parameters_get_album, Ha64.
  cbn [open_session world negb]. rewrite rows_of_get_album. fold rows.
  fold (open_session w). rewrite E1, E2. reflexivity.
Qed.

Lemma get_album_overflow a w :
  int64 a = false -> request (get_album a) w = (Raise OverflowError, w).
Proof.
  intros Ha64. unfold request, get_album, mbind, M_bind, bind, session_exec.
  by rewrite parameters_get_album, Ha64.
Qed.

(** ** Rows, keys and flags *)

Lemma elem_of_starred_rows a t r :
  r ∈ starred_rows a t <-> r ∈ t /\ Row.album r = a /\ Row.starred r = true.
Proof.
  unfold starred_rows, starred_in.
  rewrite !list_elem_of_In, filter_In, andb_true_iff, Z.eqb_eq. tauto.
Qed.

Lemma elem_of_album_rows a t r :
  r ∈ album_rows a t <-> r ∈ t /\ Row.album r = a.
Proof.
  unfold album_rows. rewrite !list_elem_of_In, filter_In, Z.eqb_eq. tauto.
Qed.

Lemma elem_of_delete_row i t r :
  r ∈ delete_row i t <-> r ∈ t /\ Row.id r <> i.
Proof.
  unfold delete_row.
  rewrite !list_elem_of_In, filter_In, negb_true_iff, Z.eqb_neq. tauto.
Qed.

Lemma elem_of_update_starred j v t x :
  x ∈ update_starred j v t <->
  exists y, y ∈ t /\ x = (if Row.id y =? j then set_flag v y else y).
Proof.
  unfold update_starred, set_flag. rewrite list_elem_of_In, in_map_iff.
  split; intros (y & H1 & H2); exists y; rewrite ?list_elem_of_In in *; eauto.
Qed.

Lemma update_starred_ids j v t : Row.id <$> update_starred j v t = Row.id <$> t.
Proof.
  unfold update_starred. induction t as [|x t IH]; cbn; [done|].
  f_equal; [|done]. by destruct (Row.id x =? j).
Qed.

Lemma pk_ok_update_starred j v t : pk_ok t -> pk_ok (update_starred j v t).
Proof. unfold pk_ok. by rewrite update_starred_ids. Qed.

Lemma pk_ok_inj t x y :
  pk_ok t -> x ∈ t -> y ∈ t -> Row.id x = Row.id y -> x = y.
Proof.
  unfold pk_ok. induction t as [|z t IH]; [by intros _ ?%elem_of_nil|].
  cbn. intros [Hz Hnd]%NoDup_cons [->|Hx]%elem_of_cons [->|Hy]%elem_of_cons Hid.
  - done.
  - destruct Hz. rewrite Hid. by apply list_elem_of_fmap_2.
  - destruct Hz. rewrite <- Hid. by apply list_elem_of_fmap_2.
  - by apply IH.
Qed.

Lemma pk_ok_NoDup t : pk_ok t -> NoDup t.
Proof. apply NoDup_fmap_1. Qed.

Lemma pk_ok_get_row t x : pk_ok t -> x ∈ t -> get_row (Row.id x) t = Some x.
Proof.
  intros Hpk Hx. destruct (get_row (Row.id x) t) as [y|] eqn:E.
  - apply get_row_Some in E as [Hy Hid]. f_equal. by apply (pk_ok_inj t).
  - by destruct (proj1 (get_row_None _ _) E x Hx).
Qed.


Lemma singleton_of_NoDup {A} (l : list A) x :
  NoDup l -> x ∈ l -> (forall y, y ∈ l -> y = x) -> l = [x].
Proof.
  intros Hnd Hx Hall. destruct l as [|y l]; [by apply elem_of_nil in Hx|].
  assert (y = x) as -> by (apply Hall; by left).
  f_equal. destruct l as [|z l]; [done|].
  assert (z = x) as -> by (apply Hall; right; by left).
  apply NoDup_cons in Hnd as [Hnd _]. destruct Hnd. by left.
Qed.

Lemma at_most_one_eq a t x y :
  at_most_one_starred a t -> x ∈ starred_rows a t -> y ∈ starred_rows a t -> x = y.
Proof.
  unfold at_most_one_starred. destruct (starred_rows a t) as [|z [|z' l]]; cbn.
  - by intros _ ?%elem_of_nil.
  - by intros _ ->%list_elem_of_singleton ->%list_elem_of_singleton.
  - lia.
Qed.

Lemma filter_unchanged {A} (f : A -> bool) (g : A -> A) (l : list A) :
  (forall y, y ∈ l -> g y = y \/ (f (g y) = false /\ f y = false)) ->
  List.filter f (map g l) = List.filter f l.
Proof.
  induction l as [|x l IH]; intros H; cbn; [done|].
  rewrite IH by (intros y Hy; apply H; by right).
  destruct (H x) as [->|[-> ->]]; [by left|done..].
Qed.

(** The primary-key constraint is kept by every write a handler makes. *)
Lemma pk_ok_delete_row i t : pk_ok t -> pk_ok (delete_row i t).
Proof.
  unfold pk_ok, delete_row. induction t as [|x t IH]; cbn; [done|].
  intros [Hx Hnd]%NoDup_cons. destruct (negb (Row.id x =? i)); cbn; [|by apply IH].
  apply NoDup_cons. split; [|by apply IH].
  intros (y & Hid & Hy)%list_elem_of_fmap. apply Hx.
  apply list_elem_of_In, filter_In in Hy as [Hy%list_elem_of_In _].
  rewrite Hid. by apply list_elem_of_fmap_2.
Qed.

Lemma pk_ok_insert t r : pk_ok t -> Row.id r = next_id t -> pk_ok (t ++ [r]).
Proof.
  unfold pk_ok. intros Hnd Hid. rewrite fmap_app. apply NoDup_app.
  split; [done|]. split; [|apply NoDup_singleton].
  intros k (y & -> & Hy%next_id_above)%list_elem_of_fmap.
  cbn. intros Heq%list_elem_of_singleton. lia.
Qed.

Lemma pk_ok_handlers w :
  pk_ok (table w) ->
  (forall env a up, pk_ok (table (request (create_image env a up) w).2))
  /\ (forall i, pk_ok (table (request (delete_image i) w).2))
  /\ (forall a i, pk_ok (table (request (set_starred a i) w).2)).
Proof.
  intros Hpk. split; [|split].
  - intros env a up. rewrite create_image_run.
    destruct (content_type up) as [ct|]; [|done].
    destruct (PyStr.startswith ct "image"); [|done]. cbn.
    destruct (PyStr.split "/" ct !! 1%nat); [|done].
    destruct (int64 a) eqn:Ha64; [|done]. cbn.
    destruct (disk env); [|done..].
    destruct (int64 (next_id (table w))) eqn:Hnext; [|done]. cbn. stored.
    by apply pk_ok_insert.
  - intros i. rewrite delete_image_run.
    destruct (int64 i); [|done]. cbn.
    destruct (get_row i (table w)); [|done]. cbn. stored. by apply pk_ok_delete_row.
  - intros a i. rewrite set_starred_run.
    destruct (int64 i); [|done]. cbn.
    destruct (get_row i (table w)) as [r|]; [|done].
    destruct (negb (Row.album r =? a)); [done|].
    destruct (starred_rows a (table w)); [done|]. cbn. stored.
    by do 2 apply pk_ok_update_starred.
Qed.

(** The two UPDATEs of [set_starred] on a table with at most one starred
    image in the album: afterwards the target is the only one. *)
Lemma star_transition t a i r p rest :
  pk_ok t -> at_most_one_starred a t ->
  get_row i t = Some r -> Row.album r = a ->
  starred_rows a t = p :: rest ->
  let t' := update_starred i true (update_starred (Row.id p) false t) in
  starred_rows a t' = [set_flag true r]
  /\ (forall b, b <> a -> starred_rows b t' = starred_rows b t).
Proof.
  intros Hpk Hone Hget Ha Hs t'.
  destruct (get_row_Some _ _ _ Hget) as [Hr Hi].
  assert (Hps : p ∈ starred_rows a t) by (rewrite Hs; by left).
  destruct (proj1 (elem_of_starred_rows _ _ _) Hps) as (Hp & Hpa & Hpf).
  split.
  - apply singleton_of_NoDup.
    + apply NoDup_ListNoDup, List.NoDup_filter, NoDup_ListNoDup, pk_ok_NoDup.
      by do 2 apply pk_ok_update_starred.
    + apply elem_of_starred_rows. split; [|by rewrite <- Ha].
      apply elem_of_update_starred.
      exists (if Row.id r =? Row.id p then set_flag false r else r). split.
      * apply elem_of_update_starred. eauto.
      * destruct (Row.id r =? Row.id p); cbn; rewrite Hi, Z.eqb_refl; done.
    + intros z (Hz & Hza & Hzf)%elem_of_starred_rows.
      apply elem_of_update_starred in Hz as (y1 & Hy1 & ->).
      apply elem_of_update_starred in Hy1 as (y & Hy & ->).
      destruct (Row.id y =? Row.id p) eqn:Ep; cbn in *.
      * destruct (Row.id y =? i) eqn:Ei; cbn in *; [|done].
        apply Z.eqb_eq in Ei. rewrite <- Hi in Ei.
        by rewrite (pk_ok_inj t y r Hpk Hy Hr Ei).
      * destruct (Row.id y =? i) eqn:Ei; cbn in *.
        -- apply Z.eqb_eq in Ei. rewrite <- Hi in Ei.
           by rewrite (pk_ok_inj t y r Hpk Hy Hr Ei).
        -- apply Z.eqb_neq in Ep. destruct Ep. f_equal.
           apply (at_most_one_eq a t); [done| |done].
           by apply elem_of_starred_rows.
  - intros b Hb. unfold t', update_starred, starred_rows. rewrite map_map.
    apply filter_unchanged. intros y Hy. unfold starred_in.
    destruct (Row.id y =? Row.id p) eqn:Ep.
    + apply Z.eqb_eq in Ep. rewrite (pk_ok_inj t y p Hpk Hy Hp Ep).
      right. cbn. destruct (Row.id p =? i); cbn;
        rewrite Hpa; rewrite (proj2 (Z.eqb_neq a b)) by done; done.
    + destruct (Row.id y =? i) eqn:Ei; [|by left].
      apply Z.eqb_eq in Ei. rewrite <- Hi in Ei.
      rewrite (pk_ok_inj t y r Hpk Hy Hr Ei).
      right. cbn. rewrite Ha. by rewrite (proj2 (Z.eqb_neq a b)).
Qed.

(** C4: in a table where album [a] has at most one starred image, a
    [set_starred a i] that returns leaves the row of [i] starred and alone
    in that: it is the only starred row of the album, [get_starred a] serves
    its file, and no album gains a second starred image. *)
Theorem set_starred_unique (w w' : World) (a i : Z) :
  pk_ok (table w) ->
  at_most_one_starred a (table w) ->
  request (set_starred a i) w = (Return tt, w') ->
  exists r,
    get_row i (table w) = Some r
    /\ set_flag true r ∈ table w'
    /\ Row.id (set_flag true r) = i
    /\ Row.album (set_flag true r) = a
    /\ Row.starred (set_flag true r) = true
    /\ starred_rows a (table w') = [set_flag true r]
    /\ (forall x, x ∈ table w' -> Row.album x = a -> Row.starred x = true ->
                  Row.id x = i)
    /\ (forall p, Row.filepath r = Some p ->
          exists ext,
            last (PyStr.split "." p) = Some ext
            /\ request (get_starred a) w'
               = (Return {| path := p; media_type := "image/" +:+ ext |}, w'))
    /\ (forall b, at_most_one_starred b (table w) ->
                  at_most_one_starred b (table w'))
    /\ pk_ok (table w').
Proof.
  intros Hpk Hone Hrun. rewrite set_starred_run in Hrun.
  destruct (int64 i); [|done]. cbn [negb] in Hrun.
  destruct (get_row i (table w)) as [r|] eqn:Hget; [|done].
  destruct (Row.album r =? a) eqn:Ha; [|done]. apply Z.eqb_eq in Ha.
  destruct (starred_rows a (table w)) as [|p rest] eqn:Hs; [done|].
  cbn in Hrun. injection Hrun as <-. stored.
  destruct (star_transition _ _ _ _ _ _ Hpk Hone Hget Ha Hs) as [Hnew Hother].
  destruct (get_row_Some _ _ _ Hget) as [Hr Hi].
  destruct (int64_table _ _ Hr) as [_ Ha64]. rewrite Ha in Ha64.
  assert (Hin : set_flag true r ∈
                update_starred i true (update_starred (Row.id p) false (table w))).
  { eapply (proj1 (elem_of_starred_rows a _ _)). rewrite Hnew. by left. }
  exists r. repeat split; try done.
  - intros x Hx Hxa Hxf.
    assert (Hxs : x ∈ starred_rows a
                    (update_starred i true (update_starred (Row.id p) false (table w))))
      by by apply elem_of_starred_rows.
    rewrite Hnew in Hxs. by apply list_elem_of_singleton in Hxs as ->.
  - intros fp Hfp. destruct (split_last "." fp) as [ext Hext].
    exists ext. split; [done|].
    rewrite get_starred_run, Ha64. stored. rewrite Hnew. cbn. by rewrite Hfp, Hext.
  - intros b Hb. unfold at_most_one_starred in *.
    destruct (decide (b = a)) as [->|Hne].
    + by rewrite Hnew.
    + by rewrite Hother.
  - by do 2 apply pk_ok_update_starred.
Qed.


(** C4 at work: starring image 2 of the two images of album 3. *)
Lemma set_starred_unique_witness :
  exists r,
    get_row 2 (table Example.two_images) = Some r
    /\ starred_rows 3 (table Example.second_starred) = [set_flag true r]
    /\ at_most_one_starred 3 (table Example.second_starred).
Proof.
  destruct (set_starred_unique Example.two_images Example.second_starred 3 2)
    as (r & Hget & _ & _ & _ & _ & Hnew & _ & _ & Hinv & _).
  - apply NoDup_ListNoDup. vm_compute. repeat constructor; simpl; lia.
  - vm_compute. lia.
  - vm_compute. reflexivity.
  - exists r. split; [exact Hget|]. split; [exact Hnew|].
    apply Hinv. vm_compute. lia.
Defined.

Lemma update_starred_twice t x v :
  pk_ok t -> x ∈ t ->
  update_starred (Row.id x) (Row.starred x) (update_starred (Row.id x) v t) = t.
Proof.
  intros Hpk Hx. unfold update_starred. rewrite map_map.
  rewrite <- (map_id t) at 2. apply map_ext_in. intros y Hy%list_elem_of_In.
  destruct (Row.id y =? Row.id x) eqn:E; cbn; rewrite E; [|done].
  apply Z.eqb_eq in E. rewrite (pk_ok_inj t y x Hpk Hy Hx E). by destruct x.
Qed.

(** C10: starring the image that is already the starred one of its album
    returns and leaves table and files as they were; both UPDATEs go to the
    same row, which is unset and set again. *)
Theorem set_starred_idempotent (w : World) (a : Z) (x : Row.t) :
  pk_ok (table w) ->
  at_most_one_starred a (table w) ->
  x ∈ table w -> Row.album x = a -> Row.starred x = true ->
  exists w',
    request (set_starred a (Row.id x)) w = (Return tt, w')
    /\ table w' = table w
    /\ files w' = files w
    /\ log w' = log w ++ [SqlUpdate (Row.id x); SqlUpdate (Row.id x)]
    /\ starred_rows a (table w') = [x].
Proof.
  intros Hpk Hone Hx Ha Hf.
  assert (Hxs : x ∈ starred_rows a (table w)) by by apply elem_of_starred_rows.
  destruct (int64_table _ _ Hx) as [Hi64 _].
  rewrite set_starred_run, Hi64, (pk_ok_get_row _ _ Hpk Hx), Ha, Z.eqb_refl. cbn.
  destruct (starred_rows a (table w)) as [|p rest] eqn:Hs;
    [by apply elem_of_nil in Hxs|].
  assert (p = x) as ->.
  { apply (at_most_one_eq a (table w)); [done | rewrite Hs; by left | by rewrite Hs]. }
  assert (rest = []) as ->.
  { unfold at_most_one_starred in Hone. rewrite Hs in Hone.
    destruct rest; [done|]. cbn in Hone. lia. }
  assert (Hsame : update_starred (Row.id x) true
                    (update_starred (Row.id x) false (table w)) = table w).
  { rewrite <- Hf at 1. by apply update_starred_twice. }
  eexists. split; [reflexivity|]. stored. cbn [files log].
  by rewrite Hsame.
Qed.

Lemma set_starred_idempotent_witness :
  exists w',
    request (set_starred 3 1) Example.two_images = (Return tt, w')
    /\ table w' = table Example.two_images.
Proof.
  destruct (set_starred_idempotent Example.two_images 3
              (Row.mk 1 3 true (Some "./images/00000000000000aa.jpeg")))
    as (w' & Hrun & Ht & _).
  - apply NoDup_ListNoDup. vm_compute. repeat constructor; simpl; lia.
  - vm_compute. lia.
  - vm_compute. left.
  - reflexivity.
  - reflexivity.
  - exists w'. split; [exact Hrun | exact Ht].
Defined.










(** C5: an upload writes the file before it inserts the row.  When it
    returns, the log shows the write and then the INSERT, the file holds the
    upload and the new row points at it; when it raises, the table is as
    before and no INSERT was made; and once the write is reached, which takes
    a valid upload and an album number of 64 bits, a failing disk makes the
    handler raise the [OSError] of the write with nothing logged, and a disk
    that answers lets it return as long as SQLite has a key to give.  With
    an album number that does not fit 64 bits the write is not reached: the
    SELECT before it ends in [OverflowError]. *)
Theorem create_image_write_before_row
    (env : Env) (a : Z) (up : UploadFile) (w w' : World) (r : result ImagePublic.t) :
  request (create_image env a up) w = (r, w') ->
  (forall img, r = Return img ->
     exists p,
       log w' = log w ++ [FileWrite p; SqlInsert (ImagePublic.id img)]
       /\ files w' !! p = Some (file up)
       /\ table w' = table w ++ [Row.mk (ImagePublic.id img) a
                                        (ImagePublic.starred img) (Some p)])
  /\ (forall e, r = Raise e ->
        table w' = table w
        /\ (forall pk, SqlInsert pk ∈ log w' -> SqlInsert pk ∈ log w))
  /\ (forall ct ext,
        content_type up = Some ct ->
        PyStr.startswith ct "image" = true ->
        PyStr.split "/" ct !! 1%nat = Some ext ->
        int64 a = true ->
        (disk env <> DiskOk ->
         r = Raise OSError /\ table w' = table w /\ log w' = log w)
        /\ (disk env = DiskOk -> int64 (next_id (table w)) = true ->
            exists img, r = Return img))
  /\ (forall ct ext,
        content_type up = Some ct ->
        PyStr.startswith ct "image" = true ->
        PyStr.split "/" ct !! 1%nat = Some ext ->
        int64 a = false ->
        r = Raise OverflowError /\ w' = w).
Proof.
  rewrite create_image_run. intros Hrun.
  destruct (content_type up) as [ct|].
  2:{ injection Hrun as <- <-. by repeat split. }
  destruct (PyStr.startswith ct "image") eqn:Himg; cbn in Hrun.
  2:{ injection Hrun as <- <-. repeat split; try done.
      all: congruence. }
  destruct (PyStr.split "/" ct !! 1%nat) as [ext|] eqn:Hext.
  2:{ injection Hrun as <- <-. repeat split; try done.
      all: congruence. }
  destruct (int64 a) eqn:Ha64; cbn [negb] in Hrun.
  2:{ injection Hrun as <- <-. repeat split; try done.
      all: congruence. }
  destruct (disk env).
  - destruct (int64 (next_id (table w))) eqn:Hnext; cbn [negb] in Hrun;
      injection Hrun as <- <-.
    + split; [|split; [|split]].
      * intros img [= <-]. eexists. cbn [log files ImagePublic.id ImagePublic.starred].
        split; [done|]. split; [apply lookup_insert_eq|].
        by stored.
      * done.
      * intros ct' ext' _ _ _ _. split; [done|]. eauto.
      * done.
    + split; [done|]. split; [|split].
      * intros e _. stored. split; [done|]. cbn [logged with_files log database].
        intros pk [Hpk|Hpk]%elem_of_app; [done|].
        by apply list_elem_of_singleton in Hpk.
      * intros ct' ext' _ _ _ _. split; [done|]. congruence.
      * done.
  - injection Hrun as <- <-. split; [done|]. split; [by intros e _|].
    split; [|done]. intros ct' ext' _ _ _ _. by split.
  - injection Hrun as <- <-. split; [done|]. split; [by intros e _|].
    split; [|done]. intros ct' ext' _ _ _ _. by split.
Qed.

Lemma create_image_write_before_row_witness :
  exists p,
    log (request (create_image (Example.env "00000000000000cc") 3 (Example.jpeg x03))
                 Example.two_images).2
    = log Example.two_images ++ [FileWrite p; SqlInsert 3].
Proof.
  destruct (create_image_write_before_row
              (Example.env "00000000000000cc") 3 (Example.jpeg x03)
              Example.two_images
              (request (create_image (Example.env "00000000000000cc") 3 (Example.jpeg x03))
                       Example.two_images).2
              (Return (ImagePublic.mk 3 3 false)))
    as (Hreturned & _).
  - vm_compute. reflexivity.
  - destruct (Hreturned (ImagePublic.mk 3 3 false)) as (p & Hlog & _); [reflexivity|].
    exists p. exact Hlog.
Defined.

(** C9: a media type that begins with [image] and has no [/] passes the
    validation and then fails on [split("/")[1]]: an [IndexError] leaves
    the handler, a 500 and neither of the two documented errors, and nothing
    has been written by then. *)
Theorem create_image_no_subtype
    (env : Env) (a : Z) (up : UploadFile) (w : World) (ct : string) :
  content_type up = Some ct ->
  PyStr.startswith ct "image" = true ->
  PyStr.contains "/" ct = false ->
  request (create_image env a up) w = (Raise IndexError, w)
  /\ status (request (create_image env a up) w).1 = 500.
Proof.
  intros Hct Himg Hsep.
  assert (Hrun : request (create_image env a up) w = (Raise IndexError, w)).
  { rewrite create_image_run, Hct, Himg. cbn. by rewrite (split_no_sep _ _ Hsep). }
  by rewrite Hrun.
Qed.

Lemma create_image_no_subtype_witness :
  request (create_image (Example.env "00000000000000cc") 3 Example.imagedata)
          Example.two_images
  = (Raise IndexError, Example.two_images).
Proof.
  apply (create_image_no_subtype (Example.env "00000000000000cc") 3
           Example.imagedata Example.two_images "imagedata");
    reflexivity.
Defined.

(** What decides the flag of a new image: whether the album has a row at
    all, starred or not. *)
Lemma create_image_star env a up w img w' :
  request (create_image env a up) w = (Return img, w') ->
  ImagePublic.starred img = true <-> (forall r, r ∈ table w -> Row.album r <> a).
Proof.
  rewrite create_image_run. intros Hrun.
  destruct (content_type up) as [ct|]; [|done].
  destruct (PyStr.startswith ct "image"); [|done]. cbn in Hrun.
  destruct (PyStr.split "/" ct !! 1%nat) as [ext|]; [|done].
  destruct (int64 a); [|done]. cbn [negb] in Hrun.
  destruct (disk env); [|done..].
  destruct (int64 (next_id (table w))); [|done]. injection Hrun as <- _. cbn.
  destruct (album_rows a (table w)) as [|r0 rest] eqn:E.
  - split; [|done]. intros _ r Hr Ha.
    assert (Hin : r ∈ album_rows a (table w)) by by apply elem_of_album_rows.
    rewrite E in Hin. by apply elem_of_nil in Hin.
  - split; [done|]. intros Hno.
    assert (Hin : r0 ∈ album_rows a (table w)) by (rewrite E; by left).
    apply elem_of_album_rows in Hin as [Hin Ha]. by destruct (Hno r0 Hin).
Qed.

(** Any media type that does not begin with [image] ends in the 400 of
    the [except] clause. *)
Lemma create_image_not_image env a up w ct :
  content_type up = Some ct ->
  PyStr.startswith ct "image" = false ->
  request (create_image env a up) w
  = (Raise (HTTPException 400 "Invalid upload"), w).
Proof. intros Hct Himg. by rewrite create_image_run, Hct, Himg. Qed.

(** An album without a starred image cannot get one through
    [set_starred]. *)
Lemma set_starred_no_previous a i w r :
  get_row i (table w) = Some r -> Row.album r = a ->
  starred_rows a (table w) = [] ->
  request (set_starred a i) w = (Raise AttributeError, w).
Proof.
  intros Hget Ha Hs. destruct (get_row_Some _ _ _ Hget) as [Hr <-].
  destruct (int64_table _ _ Hr) as [Hi64 _].
  by rewrite set_starred_run, Hi64, Hget, Ha, Z.eqb_refl, Hs.
Qed.

(** C1, on the code: album 3 holds one image, not starred (the starred one
    was deleted).  The next upload to the album is not starred either,
    although no image of the album is. *)
Theorem create_image_unstarred_album :
  table Example.unstarred_album
  = [Row.mk 2 3 false (Some "./images/00000000000000bb.jpeg")]
  /\ starred_rows 3 (table Example.unstarred_album) = []
  /\ (request (create_image (Example.env "00000000000000cc") 3 (Example.jpeg x03))
              Example.unstarred_album).1
     = Return (ImagePublic.mk 3 3 false).
Proof. repeat split; vm_compute; reflexivity. Qed.

(** C2, on the code: the 406 raised for a media type that is not an image
    is raised inside the [try] whose [except Exception] turns every exception
    into a 400, so the client of a [text/plain] upload sees 400. *)
Theorem create_image_text_plain (env : Env) (a : Z) (w : World) :
  request (create_image env a Example.text_plain) w
  = (Raise (HTTPException 400 "Invalid upload"), w)
  /\ status (request (create_image env a Example.text_plain) w).1 = 400.
Proof. by rewrite create_image_run. Qed.

(** C3, on the code: with no starred image in the album, [results.first()]
    is [None] and the unconditional [prev_starred.sqlmodel_update] raises
    [AttributeError]; the target is never starred. *)
Theorem set_starred_unstarred_album :
  get_row 2 (table Example.unstarred_album)
  = Some (Row.mk 2 3 false (Some "./images/00000000000000bb.jpeg"))
  /\ request (set_starred 3 2) Example.unstarred_album
     = (Raise AttributeError, Example.unstarred_album)
  /\ status (request (set_starred 3 2) Example.unstarred_album).1 = 500.
Proof. repeat split; vm_compute; reflexivity. Qed.


(** ** The scenario of the specification *)

(** Two uploads to album 3, the second image starred afterwards: image 1
    loses the flag, image 2 gets it, and [get_starred 3] serves the second
    file as [image/jpeg]. *)
Example star_the_second_upload :
  table Example.two_images
  = [Row.mk 1 3 true (Some "./images/00000000000000aa.jpeg");
     Row.mk 2 3 false (Some "./images/00000000000000bb.jpeg")]
  /\ table Example.second_starred
     = [Row.mk 1 3 false (Some "./images/00000000000000aa.jpeg");
        Row.mk 2 3 true (Some "./images/00000000000000bb.jpeg")]
  /\ (request (get_starred 3) Example.second_starred).1
     = Return {| path := "./images/00000000000000bb.jpeg"; media_type := "image/jpeg" |}
  /\ files Example.second_starred !! "./images/00000000000000bb.jpeg" = Some [x02].
Proof. repeat split; vm_compute; reflexivity. Qed.

(** * More of the handlers *)

(** ** Splitting *)

Lemma split_index_1 sep s :
  is_Some (PyStr.split sep s !! 1%nat) <-> PyStr.contains sep s = true.
Proof.
  induction s as [|c s IH]; cbn.
  - split; [by intros [? ?]|done].
  - destruct (Ascii.eqb c sep); cbn.
    + split; [done|]. intros _.
      pose proof (split_nonempty sep s). by destruct (PyStr.split sep s); eauto.
    + rewrite <- IH. pose proof (split_nonempty sep s).
      by destruct (PyStr.split sep s).
Qed.

Lemma split_two sep s :
  PyStr.contains sep s = true -> exists x y l, PyStr.split sep s = x :: y :: l.
Proof.
  intros [y Hy]%split_index_1.
  destruct (PyStr.split sep s) as [|x [|y' l]]; [done..|]. eauto.
Qed.

Lemma contains_app_r sep s u :
  PyStr.contains sep u = true -> PyStr.contains sep (s +:+ u) = true.
Proof.
  intros Hu. induction s as [|c s IH]; simpl; [done|].
  rewrite IH. apply orb_true_r.
Qed.

(** What follows the last separator is not affected by what precedes
    another separator. *)
Lemma split_app_last sep s u :
  PyStr.contains sep u = true ->
  last (PyStr.split sep (s +:+ u)) = last (PyStr.split sep u).
Proof.
  intros Hu. induction s as [|c s IH]; simpl; [done|].
  destruct (split_two sep (s +:+ u)) as (x & y & l & E);
    [by apply contains_app_r|].
  rewrite <- IH, E. by destruct (Ascii.eqb c sep).
Qed.

Lemma split_after_sep sep ext :
  last (PyStr.split sep (String sep ext)) = last (PyStr.split sep ext).
Proof.
  cbn. rewrite Ascii.eqb_refl. pose proof (split_nonempty sep ext).
  by destruct (PyStr.split sep ext).
Qed.

(** The extension [get_starred] reads off a path that [create_image]
    built: what follows the last dot of the subtype. *)
Lemma filepath_extension token ext :
  last (PyStr.split "." (IMAGES_DIR +:+ "/" +:+ token +:+ "." +:+ ext))
  = last (PyStr.split "." ext).
Proof.
  change ("." +:+ ext) with (String "."%char ext).
  rewrite !split_app_last; [apply split_after_sep|..];
    repeat apply contains_app_r; cbn; done.
Qed.

(** ** Uploads *)

(** Settling which of several outcomes a result is. *)
Ltac outcome :=
  repeat split; intros;
  repeat match goal with
    | H : ex _ |- _ => destruct H
    | H : _ /\ _ |- _ => destruct H
    | H : forall ct, Some ?c = Some ct -> _ |- _ => specialize (H c eq_refl)
    end;
  simplify_eq; try done; try congruence; eauto 10.

(** X1: what [create_image] can answer, and when, as long as SQLite has a
    key to give.  It is a 400 exactly for a missing media type or one that
    does not begin with [image], an escaping [IndexError] exactly for one
    that begins with [image] and has no slash, an escaping [OverflowError]
    exactly when the upload is well formed and the album number does not fit
    64 bits, an escaping [OSError] exactly when the upload is well formed, the
    album number fits and the disk fails, and a record otherwise; it is never
    a 406. *)
Theorem create_image_outcomes (env : Env) (a : Z) (up : UploadFile) (w : World) :
  int64 (next_id (table w)) = true ->
  let r := (request (create_image env a up) w).1 in
  (r = Raise (HTTPException 400 "Invalid upload")
   <-> forall ct, content_type up = Some ct -> PyStr.startswith ct "image" = false)
  /\ (r = Raise IndexError
      <-> exists ct, content_type up = Some ct
                     /\ PyStr.startswith ct "image" = true
                     /\ PyStr.contains "/" ct = false)
  /\ (r = Raise OverflowError
      <-> exists ct, content_type up = Some ct
                     /\ PyStr.startswith ct "image" = true
                     /\ PyStr.contains "/" ct = true
                     /\ int64 a = false)
  /\ (r = Raise OSError
      <-> exists ct, content_type up = Some ct
                     /\ PyStr.startswith ct "image" = true
                     /\ PyStr.contains "/" ct = true
                     /\ int64 a = true
                     /\ disk env <> DiskOk)
  /\ ((exists img, r = Return img)
      <-> exists ct, content_type up = Some ct
                     /\ PyStr.startswith ct "image" = true
                     /\ PyStr.contains "/" ct = true
                     /\ int64 a = true
                     /\ disk env = DiskOk)
  /\ status r <> 406.
Proof.
  intros Hnext. rewrite create_image_run. cbn zeta. rewrite Hnext.
  destruct (content_type up) as [ct|]; cbn; [|outcome].
  destruct (PyStr.startswith ct "image") eqn:Himg; cbn; [|outcome].
  pose proof (split_index_1 "/" ct) as Hidx.
  destruct (PyStr.split "/" ct !! 1%nat) as [ext|] eqn:Hext; cbn.
  - assert (Hyes : PyStr.contains "/" ct = true) by (apply Hidx; eauto).
    clear Hidx Hnext. destruct (int64 a) eqn:Ha64; cbn; [|outcome].
    destruct (disk env) eqn:Hdisk; cbn; outcome.
  - assert (Hno : PyStr.contains "/" ct = false).
    { destruct (PyStr.contains "/" ct); [|done].
      by destruct (proj2 Hidx eq_refl). }
    clear Hidx Hnext. outcome.
Qed.

Lemma create_image_outcomes_witness :
  (request (create_image (Example.env "00000000000000cc") (2 ^ 63) (Example.jpeg x03))
           Example.two_images).1
  = Raise OverflowError.
Proof.
  destruct (create_image_outcomes (Example.env "00000000000000cc") (2 ^ 63)
              (Example.jpeg x03) Example.two_images) as (_ & _ & Hoverflow & _).
  - vm_compute. reflexivity.
  - apply Hoverflow. exists "image/jpeg". repeat split; vm_compute; reflexivity.
Defined.

Lemma split_parts_no_sep sep s x :
  x ∈ PyStr.split sep s -> PyStr.contains sep x = false.
Proof.
  revert x. induction s as [|c s IH]; simpl; intros x Hx.
  - by apply list_elem_of_singleton in Hx as ->.
  - destruct (Ascii.eqb c sep) eqn:Ec.
    + apply elem_of_cons in Hx as [->|Hx]; [done|by apply IH].
    + pose proof (split_nonempty sep s) as Hne.
      destruct (PyStr.split sep s) as [|y l]; [done|].
      apply elem_of_cons in Hx as [->|Hx].
      * simpl. rewrite Ec. apply IH. by left.
      * apply IH. by right.
Qed.

Lemma starred_rows_app a t1 t2 :
  starred_rows a (t1 ++ t2) = starred_rows a t1 ++ starred_rows a t2.
Proof. apply List.filter_app. Qed.


Lemma starred_rows_empty_album a t : album_rows a t = [] -> starred_rows a t = [].
Proof.
  intros Ha. destruct (starred_rows a t) as [|r l] eqn:E; [done|].
  assert (Hr : r ∈ starred_rows a t) by (rewrite E; by left).
  apply elem_of_starred_rows in Hr as (Hr & Hra & _).
  assert (Hin : r ∈ album_rows a t) by by apply elem_of_album_rows.
  rewrite Ha in Hin. by apply elem_of_nil in Hin.
Qed.



(** X3: the flag of a new image says whether its album had no image at
    all before the upload, starred or not. *)
Theorem create_image_starred_iff_first
    (env : Env) (a : Z) (up : UploadFile) (w w' : World) (img : ImagePublic.t) :
  request (create_image env a up) w = (Return img, w') ->
  (ImagePublic.starred img = true <-> album_rows a (table w) = [])
  /\ (ImagePublic.starred img = false
      <-> exists r, r ∈ table w /\ Row.album r = a).
Proof.
  rewrite create_image_run. intros Hrun.
  destruct (content_type up) as [ct|]; [|done].
  destruct (PyStr.startswith ct "image"); [|done]. cbn in Hrun.
  destruct (PyStr.split "/" ct !! 1%nat) as [ext|]; [|done].
  destruct (int64 a); [|done]. cbn [negb] in Hrun.
  destruct (disk env); [|done..].
  destruct (int64 (next_id (table w))); [|done]. injection Hrun as <- _. cbn.
  destruct (album_rows a (table w)) as [|r0 rest] eqn:E.
  - split; [done|]. split; [done|]. intros (r & Hr & Ha).
    assert (Hin : r ∈ album_rows a (table w)) by by apply elem_of_album_rows.
    rewrite E in Hin. by apply elem_of_nil in Hin.
  - split; [done|]. split; [|done]. intros _.
    assert (Hin : r0 ∈ album_rows a (table w)) by (rewrite E; by left).
    apply elem_of_album_rows in Hin. by exists r0.
Qed.

Lemma create_image_starred_iff_first_witness :
  exists r, r ∈ table Example.unstarred_album /\ Row.album r = 3.
Proof.
  destruct (create_image_starred_iff_first
              (Example.env "00000000000000cc") 3 (Example.jpeg x03)
              Example.unstarred_album
              (request (create_image (Example.env "00000000000000cc") 3 (Example.jpeg x03))
                       Example.unstarred_album).2
              (ImagePublic.mk 3 3 false)) as [_ [Hfalse _]].
  - vm_compute. reflexivity.
  - apply Hfalse. reflexivity.
Defined.

(** X4: the first image of an album can be fetched as the starred one
    right after its upload: the file served holds the uploaded bytes, and
    its media type is [image/] followed by what follows the last dot of the
    uploaded subtype.  So a subtype without a dot comes back as it was sent
    and a subtype with a dot does not. *)
Theorem get_starred_after_first_upload
    (env : Env) (a : Z) (up : UploadFile) (w w' : World) (img : ImagePublic.t)
    (ct ext : string) :
  content_type up = Some ct ->
  PyStr.split "/" ct !! 1%nat = Some ext ->
  album_rows a (table w) = [] ->
  request (create_image env a up) w = (Return img, w') ->
  exists p sub,
    last (PyStr.split "." ext) = Some sub
    /\ request (get_starred a) w'
       = (Return {| path := p; media_type := "image/" +:+ sub |}, w')
    /\ files w' !! p = Some (file up)
    /\ (PyStr.contains "." ext = false -> sub = ext)
    /\ (PyStr.contains "." ext = true -> "image/" +:+ sub <> "image/" +:+ ext).
Proof.
  intros Hct Hext Halbum. rewrite create_image_run, Hct.
  destruct (PyStr.startswith ct "image"); [|done]. cbn. rewrite Hext, Halbum.
  destruct (int64 a) eqn:Ha64; [|done]. cbn [negb].
  destruct (disk env); [|done..].
  destruct (int64 (next_id (table w))) eqn:Hnext; [|done]. intros [= <- <-].
  destruct (split_last "." ext) as [sub Hsub].
  eexists _, sub. split; [done|]. split; [|split; [|split]].
  - rewrite get_starred_run, Ha64. cbn [negb]. stored.
    rewrite starred_rows_app, (starred_rows_empty_album _ _ Halbum).
    cbn. unfold starred_in. cbn. rewrite Z.eqb_refl. cbn.
    by rewrite filepath_extension, Hsub.
  - apply lookup_insert_eq.
  - intros Hno. rewrite (split_no_sep _ _ Hno) in Hsub. by injection Hsub.
  - intros Hdot Heq. injection Heq as Heq. change (sub = ext) in Heq.
    rewrite <- Heq in Hdot.
    assert (Hin : sub ∈ PyStr.split "." ext)
      by (apply last_Some in Hsub as [l ->]; apply elem_of_app; right; by left).
    apply split_parts_no_sep in Hin. congruence.
Qed.

Lemma get_starred_after_first_upload_witness :
  exists p,
    request (get_starred 3)
      (request (create_image (Example.env "00000000000000aa") 3 (Example.jpeg x01))
               Example.empty).2
    = (Return {| path := p; media_type := "image/jpeg" |},
       (request (create_image (Example.env "00000000000000aa") 3 (Example.jpeg x01))
                Example.empty).2).
Proof.
  destruct (get_starred_after_first_upload
              (Example.env "00000000000000aa") 3 (Example.jpeg x01) Example.empty
              (request (create_image (Example.env "00000000000000aa") 3 (Example.jpeg x01))
                       Example.empty).2
              (ImagePublic.mk 1 3 true) "image/jpeg" "jpeg")
    as (p & sub & Hsub & Hrun & _).
  - reflexivity.
  - reflexivity.
  - reflexivity.
  - vm_compute. reflexivity.
  - vm_compute in Hsub. injection Hsub as <-. exists p. exact Hrun.
Defined.

(** ** What every request keeps *)

Lemma filter_filter_length {A} (f g : A -> bool) (l : list A) :
  (length (List.filter f (List.filter g l)) <= length (List.filter f l))%nat.
Proof.
  induction l as [|x l IH]; cbn; [done|].
  destruct (g x), (f x) eqn:Ef; cbn; rewrite ?Ef; cbn; lia.
Qed.

Lemma at_most_one_delete_row b i t :
  at_most_one_starred b t -> at_most_one_starred b (delete_row i t).
Proof.
  unfold at_most_one_starred, starred_rows, delete_row. intros H.
  etrans; [apply filter_filter_length|done].
Qed.

Lemma filepath_update_starred j v t x :
  x ∈ update_starred j v t ->
  exists y, y ∈ t /\ fixed_columns x = fixed_columns y.
Proof.
  intros (y & Hy & ->)%elem_of_update_starred. exists y. split; [done|].
  by destruct (Row.id y =? j).
Qed.

Lemma request_get_album_world a w : (request (get_album a) w).2 = w.
Proof.
  destruct (int64 a) eqn:Ha64.
  - by destruct (get_album_run a w Ha64) as (ps & -> & _).
  - by rewrite get_album_overflow.
Qed.

Lemma request_get_starred_world a w : (request (get_starred a) w).2 = w.
Proof.
  rewrite get_starred_run. destruct (int64 a); [|done]. cbn [negb].
  destruct (starred_rows a (table w)) as [|r l]; [done|].
  destruct (Row.filepath r) as [p|]; [|done].
  by destruct (last (PyStr.split "." p)).
Qed.

(** A file written to [IMAGES_DIR] takes no file away from a row. *)
Lemma files_insert_kept (w : World) q bytes :
  (forall r, r ∈ table w ->
     exists p, Row.filepath r = Some p /\ is_Some (files w !! p)) ->
  forall r, r ∈ table w ->
    exists p, Row.filepath r = Some p /\ is_Some (<[q := bytes]> (files w) !! p).
Proof.
  intros Hfile r Hr. destruct (Hfile r Hr) as (p & Hp & Hsome).
  exists p. split; [done|]. apply lookup_insert_is_Some.
  destruct (decide (q = p)); eauto.
Qed.

Lemma healthy_after c w : healthy w -> healthy (after c w).
Proof.
  intros (Hpk & Hone & Hfile). destruct c as [env a up|i|a|a|a i]; cbn [after].
  - rewrite create_image_run.
    destruct (content_type up) as [ct|]; [|done].
    destruct (PyStr.startswith ct "image"); [|done]. cbn.
    destruct (PyStr.split "/" ct !! 1%nat) as [ext|]; [|done].
    destruct (int64 a) eqn:Ha64; [|done]. cbn [negb].
    destruct (disk env) as [| |n]; [|done|].
    + destruct (int64 (next_id (table w))) eqn:Hnext; cbn [negb];
        unfold healthy; cbn [snd]; stored; cbn [files logged with_files].
      * split; [by apply pk_ok_insert|]. split.
        -- intros b. unfold at_most_one_starred. rewrite starred_rows_app.
           rewrite length_app. cbn. unfold starred_in. cbn.
           destruct (album_rows a (table w)) as [|r0 rest] eqn:E; cbn.
           ++ destruct (a =? b) eqn:Eab; cbn;
                [|specialize (Hone b); unfold at_most_one_starred in Hone; lia].
              apply Z.eqb_eq in Eab as <-.
              rewrite (starred_rows_empty_album _ _ E). cbn. lia.
           ++ rewrite andb_false_r. cbn.
              specialize (Hone b). unfold at_most_one_starred in Hone. lia.
        -- intros r [Hr|Hr]%elem_of_app; [|apply list_elem_of_singleton in Hr as ->].
           ++ by apply files_insert_kept.
           ++ eexists. split; [done|]. cbn. rewrite lookup_insert_eq. eauto.
      * split; [done|]. split; [done|]. by apply files_insert_kept.
    + unfold healthy; cbn [snd]; stored; cbn [files with_files].
      split; [done|]. split; [done|]. by apply files_insert_kept.
  - rewrite delete_image_run. destruct (int64 i); [|done]. cbn [negb].
    destruct (get_row i (table w)); [|done]. unfold healthy; cbn [snd]; stored.
    split; [by apply pk_ok_delete_row|]. split.
    + intros b. by apply at_most_one_delete_row.
    + intros r [Hr _]%elem_of_delete_row. by apply Hfile.
  - by rewrite request_get_album_world.
  - by rewrite request_get_starred_world.
  - rewrite set_starred_run. destruct (int64 i); [|done]. cbn [negb].
    destruct (get_row i (table w)) as [r|] eqn:Hget; [|done].
    destruct (Row.album r =? a) eqn:Ha; [|done]. apply Z.eqb_eq in Ha. cbn.
    destruct (starred_rows a (table w)) as [|p rest] eqn:Hs; [done|].
    unfold healthy; cbn [snd]; stored; cbn [files].
    destruct (star_transition _ _ _ _ _ _ Hpk (Hone a) Hget Ha Hs) as [Hnew Hother].
    split; [by do 2 apply pk_ok_update_starred|]. split.
    + intros b. unfold at_most_one_starred.
      destruct (decide (b = a)) as [->|Hne].
      * by rewrite Hnew.
      * rewrite Hother by done. apply Hone.
    + intros x (y1 & Hy1 & E1)%filepath_update_starred.
      apply filepath_update_starred in Hy1 as (y & Hy & E2).
      destruct (Hfile y Hy) as (fp & Hfp & Hsome). exists fp. split; [|done].
      unfold fixed_columns in *. congruence.
Qed.

Lemma healthy_after_all cs : forall w, healthy w -> healthy (after_all cs w).
Proof.
  unfold after_all. induction cs as [|c cs IH]; intros w Hw; cbn; [done|].
  by apply IH, healthy_after.
Qed.

Lemma healthy_initial : healthy initial.
Proof.
  unfold healthy. change (table initial) with (@nil Row.t).
  split; [apply NoDup_nil_2|]. split.
  - intros a. cbn. unfold at_most_one_starred. cbn. lia.
  - by intros r ?%elem_of_nil.
Qed.

(** X5: whatever requests have been served since the database was new,
    and whatever the disk answered to the uploads among them, the keys of
    the table are unique, no album has more than one starred image, and every
    row points at a file that exists. *)
Theorem healthy_always (cs : list call) : healthy (after_all cs initial).
Proof. apply healthy_after_all, healthy_initial. Qed.

(** X6: so [get_starred] has three answers only, at any time: an
    [OverflowError] for an album number that does not fit 64 bits, else a
    404, or the path of a file on disk that belongs to a starred row of the
    album; its read of the extension never fails on a row without a path. *)
Theorem get_starred_always (cs : list call) (a : Z) :
  let w := after_all cs initial in
  (int64 a = false /\ request (get_starred a) w = (Raise OverflowError, w))
  \/ (int64 a = true
      /\ request (get_starred a) w
         = (Raise (HTTPException 404 "No starred image found"), w))
  \/ exists r p ext,
       r ∈ table w /\ Row.album r = a /\ Row.starred r = true
       /\ Row.filepath r = Some p
       /\ is_Some (files w !! p)
       /\ last (PyStr.split "." p) = Some ext
       /\ request (get_starred a) w
          = (Return {| path := p; media_type := "image/" +:+ ext |}, w).
Proof.
  cbn zeta. set (w := after_all cs initial).
  destruct (healthy_after_all cs initial healthy_initial) as (_ & _ & Hfile).
  fold w in Hfile. rewrite get_starred_run.
  destruct (int64 a); cbn [negb]; [|by left]. right.
  destruct (starred_rows a (table w)) as [|r rest] eqn:Hs; [by left|]. right.
  assert (Hr : r ∈ starred_rows a (table w)) by (rewrite Hs; by left).
  apply elem_of_starred_rows in Hr as (Hr & Ha & Hf).
  destruct (Hfile r Hr) as (p & Hp & Hsome).
  destruct (split_last "." p) as [ext Hext].
  exists r, p, ext. rewrite Hp, Hext. by repeat split.
Qed.

(** ** Albums without a starred image *)

Lemma set_starred_other_album t b i r p :
  pk_ok t -> get_row i t = Some r -> Row.album r = b ->
  p ∈ t -> Row.album p = b ->
  forall a, a <> b ->
    starred_rows a (update_starred i true (update_starred (Row.id p) false t))
    = starred_rows a t.
Proof.
  intros Hpk Hget Hb Hp Hpb a Ha.
  destruct (get_row_Some _ _ _ Hget) as [Hr Hi].
  unfold update_starred, starred_rows. rewrite map_map.
  apply filter_unchanged. intros y Hy. unfold starred_in.
  destruct (Row.id y =? Row.id p) eqn:Ep.
  - apply Z.eqb_eq in Ep. rewrite (pk_ok_inj t y p Hpk Hy Hp Ep).
    right. cbn. destruct (Row.id p =? i); cbn;
      rewrite Hpb; rewrite (proj2 (Z.eqb_neq b a)) by done; done.
  - destruct (Row.id y =? i) eqn:Ei; [|by left].
    apply Z.eqb_eq in Ei. rewrite <- Hi in Ei.
    rewrite (pk_ok_inj t y r Hpk Hy Hr Ei).
    right. cbn. rewrite Hb. by rewrite (proj2 (Z.eqb_neq b a)).
Qed.

Lemma pk_ok_after c w : pk_ok (table w) -> pk_ok (table (after c w)).
Proof.
  intros Hpk. destruct (pk_ok_handlers w Hpk) as (H1 & H2 & H3).
  destruct c; cbn [after];
    rewrite ?request_get_album_world, ?request_get_starred_world; auto.
Qed.

Lemma unstarred_after c w a :
  pk_ok (table w) ->
  album_rows a (table w) <> [] -> starred_rows a (table w) = [] ->
  starred_rows a (table (after c w)) = [].
Proof.
  intros Hpk Hne Hs. destruct c as [env b up|i|b|b|b i]; cbn [after].
  - rewrite create_image_run.
    destruct (content_type up) as [ct|]; [|done].
    destruct (PyStr.startswith ct "image"); [|done]. cbn.
    destruct (PyStr.split "/" ct !! 1%nat) as [ext|]; [|done].
    destruct (int64 b) eqn:Hb64; [|done]. cbn [negb].
    destruct (disk env); [|done..].
    destruct (int64 (next_id (table w))) eqn:Hnext; [|done]. cbn [negb snd]. stored.
    rewrite starred_rows_app, Hs. cbn. unfold starred_in. cbn.
    destruct (b =? a) eqn:Eb; [|done]. apply Z.eqb_eq in Eb as ->.
    by destruct (album_rows a (table w)).
  - rewrite delete_image_run. destruct (int64 i); [|done]. cbn [negb].
    destruct (get_row i (table w)); [|done]. cbn [snd]. stored.
    pose proof (filter_filter_length (starred_in a)
                  (fun r => negb (Row.id r =? i)) (table w)) as Hlen.
    fold (starred_rows a (table w)) in Hlen. rewrite Hs in Hlen.
    unfold starred_rows, delete_row.
    destruct (List.filter _ (List.filter _ (table w))); [done|]. cbn in Hlen. lia.
  - by rewrite request_get_album_world.
  - by rewrite request_get_starred_world.
  - rewrite set_starred_run. destruct (int64 i); [|done]. cbn [negb].
    destruct (get_row i (table w)) as [r|] eqn:Hget; [|done].
    destruct (Row.album r =? b) eqn:Hb; [|done]. apply Z.eqb_eq in Hb. cbn [negb].
    destruct (starred_rows b (table w)) as [|p rest] eqn:Hsb; [done|]. cbn [snd]. stored.
    assert (Hp : p ∈ starred_rows b (table w)) by (rewrite Hsb; by left).
    apply elem_of_starred_rows in Hp as (Hp & Hpb & _).
    rewrite (set_starred_other_album _ b i r p); try done.
    intros ->. by rewrite Hs in Hsb.
Qed.

(** X7: an album that has images and none starred stays without a starred
    image whatever is requested, for as long as it has an image: uploads to
    it are not starred, [set_starred] on it fails, and nothing that is done
    to other albums reaches it. *)
Theorem unstarred_album_stays (w : World) (a : Z) (cs : list call) :
  pk_ok (table w) ->
  starred_rows a (table w) = [] ->
  (forall cs', cs' `prefix_of` cs -> album_rows a (table (after_all cs' w)) <> []) ->
  starred_rows a (table (after_all cs w)) = [].
Proof.
  revert w. induction cs as [|c cs IH]; intros w Hpk Hs Hne; [done|].
  change (after_all (c :: cs) w) with (after_all cs (after c w)).
  apply IH.
  - by apply pk_ok_after.
  - apply unstarred_after; [done| |done]. apply (Hne []), prefix_nil.
  - intros cs' Hpre.
    change (after_all cs' (after c w)) with (after_all (c :: cs') w).
    by apply Hne, prefix_cons.
Qed.

Lemma unstarred_album_stays_witness :
  starred_rows 3
    (table (after_all [CreateImage (Example.env "00000000000000cc") 3 (Example.jpeg x03);
                       SetStarred 3 2]
                      Example.unstarred_album))
  = [].
Proof.
  apply unstarred_album_stays.
  - apply NoDup_ListNoDup. vm_compute. repeat constructor; simpl; lia.
  - reflexivity.
  - intros cs' [k Hk].
    destruct cs' as [|c1 [|c2 [|c3 cs']]]; cbn in Hk; simplify_eq;
      vm_compute; discriminate.
Defined.

(** X8: deleting the starred image of an album leaves the album without
    one, however many images remain in it: [get_starred] answers 404 from
    then on. *)
Theorem delete_starred_image (w : World) (a : Z) (x : Row.t) :
  at_most_one_starred a (table w) ->
  x ∈ table w -> Row.album x = a -> Row.starred x = true ->
  starred_rows a (table (after (DeleteImage (Row.id x)) w)) = []
  /\ request (get_starred a) (after (DeleteImage (Row.id x)) w)
     = (Raise (HTTPException 404 "No starred image found"),
        after (DeleteImage (Row.id x)) w).
Proof.
  intros Hone Hx Ha Hf. destruct (int64_table _ _ Hx) as [Hi64 Ha64].
  rewrite Ha in Ha64.
  assert (Hgone : starred_rows a (table (after (DeleteImage (Row.id x)) w)) = []).
  { cbn [after]. rewrite delete_image_run, Hi64. cbn [negb].
    destruct (get_row (Row.id x) (table w)) eqn:E;
      [|by destruct (proj1 (get_row_None _ _) E x Hx)].
    cbn [snd]. stored.
    destruct (starred_rows a (delete_row (Row.id x) (table w))) as [|y l] eqn:Ey;
      [done|].
    assert (Hy : y ∈ starred_rows a (delete_row (Row.id x) (table w)))
      by (rewrite Ey; by left).
    apply elem_of_starred_rows in Hy as ([Hy Hid]%elem_of_delete_row & Hya & Hyf).
    destruct Hid. f_equal. apply (at_most_one_eq a (table w)); [done|..];
      by apply elem_of_starred_rows. }
  split; [done|]. by rewrite get_starred_run, Ha64, Hgone.
Qed.

Lemma delete_starred_image_witness :
  request (get_starred 3) Example.unstarred_album
  = (Raise (HTTPException 404 "No starred image found"), Example.unstarred_album).
Proof.
  apply (delete_starred_image Example.two_images 3
           (Row.mk 1 3 true (Some "./images/00000000000000aa.jpeg"))).
  - vm_compute. lia.
  - vm_compute. left.
  - reflexivity.
  - reflexivity.
Defined.

(** ** Listing an album *)

Lemma get_album_rows a w :
  pk_ok (table w) -> int64 a = true ->
  request (get_album a) w = (Return (public <$> take 10 (album_rows a (table w))), w).
Proof.
  intros Hpk Ha64. destruct (get_album_run a w Ha64) as (ps & -> & Hall). do 2 f_equal.
  apply list_eq. intros k. rewrite list_lookup_fmap.
  pose proof (proj1 (Forall2_lookup _ _ _) Hall k) as Hk.
  inversion Hk as [p r (r' & Hr' & Hid & ->) Ep Er | Ep Er]; [|done]. cbn. f_equal.
  assert (Hr : r ∈ take 10 (album_rows a (table w))).
  { apply list_elem_of_lookup. exists k. by symmetry. }
  f_equal.
  apply subseteq_take, elem_of_album_rows in Hr as [Hr _].
  apply subseteq_take, elem_of_album_rows in Hr' as [Hr' _].
  by apply (pk_ok_inj (table w)).
Qed.

(** X9: for an album number of 64 bits, [get_album] answers with the first
    ten images of the album in the order of the table, fewer if the album has
    fewer, and with nothing else; for any other number it answers with no
    list, and no row of the table is missed by that. *)
Theorem get_album_first_ten (w : World) (a : Z) :
  pk_ok (table w) ->
  (int64 a = true ->
   request (get_album a) w = (Return (public <$> take 10 (album_rows a (table w))), w)
   /\ length (public <$> take 10 (album_rows a (table w)))
      = (length (album_rows a (table w)) `min` 10)%nat)
  /\ (int64 a = false ->
      request (get_album a) w = (Raise OverflowError, w)
      /\ album_rows a (table w) = []).
Proof.
  intros Hpk. split.
  - intros Ha64. split; [by apply get_album_rows|].
    rewrite length_fmap, length_take. lia.
  - intros Ha64. split; [by apply get_album_overflow|].
    destruct (album_rows a (table w)) as [|r l] eqn:E; [done|].
    assert (Hr : r ∈ album_rows a (table w)) by (rewrite E; by left).
    apply elem_of_album_rows in Hr as [[_ Hr]%int64_table Ha]. congruence.
Qed.

Lemma get_album_first_ten_witness :
  request (get_album 3) Example.two_images
  = (Return [ImagePublic.mk 1 3 true; ImagePublic.mk 2 3 false], Example.two_images).
Proof.
  apply (get_album_first_ten Example.two_images 3).
  - apply NoDup_ListNoDup. vm_compute. repeat constructor; simpl; lia.
  - vm_compute. reflexivity.
Defined.



(** ** What starring leaves alone *)

Lemma update_starred_fixed_columns j v t :
  fixed_columns <$> update_starred j v t = fixed_columns <$> t.
Proof.
  unfold update_starred. induction t as [|x t IH]; cbn; [done|].
  f_equal; [|done]. by destruct (Row.id x =? j).
Qed.

(** X11: [set_starred] touches nothing but flags.  Whatever it answers,
    the files, and the key, album and path of every row, are as before; when
    it raises, the whole world is as before; for a key of 64 bits it answers
    404 exactly when the album has no image of the key asked for; and for any
    other key, which no image has, it ends in [OverflowError]. *)
Theorem set_starred_frame (w : World) (a i : Z) :
  files (request (set_starred a i) w).2 = files w
  /\ fixed_columns <$> table (request (set_starred a i) w).2
     = fixed_columns <$> table w
  /\ (forall e, (request (set_starred a i) w).1 = Raise e ->
                (request (set_starred a i) w).2 = w)
  /\ (pk_ok (table w) -> int64 i = true ->
      ((request (set_starred a i) w).1 = Raise (HTTPException 404 "Image not found")
       <-> ~ exists x, x ∈ table w /\ Row.id x = i /\ Row.album x = a))
  /\ (int64 i = false ->
      (request (set_starred a i) w).1 = Raise OverflowError
      /\ ~ exists x, x ∈ table w /\ Row.id x = i).
Proof.
  rewrite set_starred_run. destruct (int64 i) eqn:Hi64; cbn [negb].
  2:{ repeat split; try done. intros (x & [Hx _]%int64_table & Hi). congruence. }
  destruct (get_row i (table w)) as [r|] eqn:Hget.
  2:{ repeat split; try done. intros _ (x & Hx & Hi & _).
      by destruct (proj1 (get_row_None _ _) Hget x Hx). }
  destruct (get_row_Some _ _ _ Hget) as [Hr Hi].
  destruct (Row.album r =? a) eqn:Ha; cbn [negb].
  2:{ apply Z.eqb_neq in Ha. repeat split; try done.
      intros _ (x & Hx & Hxi & Hxa). rewrite <- Hi in Hxi.
      by rewrite (pk_ok_inj (table w) x r) in Hxa. }
  apply Z.eqb_eq in Ha.
  assert (Hex : exists x, x ∈ table w /\ Row.id x = i /\ Row.album x = a) by eauto.
  destruct (starred_rows a (table w)) as [|p rest]; cbn [fst snd].
  - split; [done|]. split; [done|]. split; [done|]. split; [|done].
    intros _ _. by split.
  - stored. rewrite !update_starred_fixed_columns.
    split; [done|]. split; [done|]. split; [done|]. split; [|done].
    intros _ _. by split.
Qed.

Lemma set_starred_frame_witness :
  (request (set_starred 4 1) Example.two_images).1
  = Raise (HTTPException 404 "Image not found").
Proof.
  destruct (set_starred_frame Example.two_images 4 1) as (_ & _ & _ & Hiff & _).
  apply Hiff.
  - apply NoDup_ListNoDup. vm_compute. repeat constructor; simpl; lia.
  - vm_compute. reflexivity.
  - intros (x & Hx & _ & Ha). vm_compute in Hx.
    apply list_elem_of_In in Hx. cbn in Hx.
    destruct Hx as [<-|[<-|[]]]; discriminate.
Defined.

(** X12: a deleted key is gone for every request that names it: a second
    [delete_image] and a [set_starred] on any album answer as they do for a
    key that was never there, 404 for a key of 64 bits and [OverflowError]
    for any other, and change nothing. *)
Theorem deleted_key_not_found (w : World) (i a : Z) :
  (int64 i = true ->
   request (delete_image i) (after (DeleteImage i) w)
   = (Raise (HTTPException 404 "Image not found"), after (DeleteImage i) w)
   /\ request (set_starred a i) (after (DeleteImage i) w)
      = (Raise (HTTPException 404 "Image not found"), after (DeleteImage i) w))
  /\ (int64 i = false ->
      after (DeleteImage i) w = w
      /\ request (delete_image i) w = (Raise OverflowError, w)
      /\ request (set_starred a i) w = (Raise OverflowError, w)).
Proof.
  split.
  - intros Hi64.
    assert (Hgone : get_row i (table (after (DeleteImage i) w)) = None).
    { cbn [after]. rewrite delete_image_run, Hi64. cbn [negb].
      destruct (get_row i (table w)) eqn:E; [|done]. cbn [snd]. stored.
      apply get_row_None. by intros y [_ Hy]%elem_of_delete_row. }
    by rewrite delete_image_run, set_starred_run, Hi64, Hgone.
  - intros Hi64. cbn [after]. by rewrite delete_image_run, set_starred_run, Hi64.
Qed.

Lemma deleted_key_not_found_witness :
  request (delete_image 1) Example.unstarred_album
  = (Raise (HTTPException 404 "Image not found"), Example.unstarred_album).
Proof.
  apply (proj1 (deleted_key_not_found Example.two_images 1 3)).
  vm_compute. reflexivity.
Defined.

Example decimal_3 : decimal 3 = "3" /\ decimal (-12) = "-12" /\ read_decimal "42" = Some 42.
Proof. repeat split; vm_compute; reflexivity. Qed.

(** * The client against the application *)

Lemma route_images_album m x :
  x <> "" -> route m ["images"; "album"; x] = NotFound.
Proof.
  intros Hx. apply String.eqb_neq in Hx.
  unfold route. cbn. unfold ends_with_slash. cbn. rewrite Hx. cbn.
  reflexivity.
Qed.

Lemma route_images_album_starred m x :
  route m ["images"; "album"; x; "starred"] = NotFound.
Proof. reflexivity. Qed.

Lemma route_images_id x :
  x <> "" ->
  route GET ["images"; x] = MethodNotAllowed
  /\ route DELETE ["images"; x] = Handle delete_image_route [x].
Proof.
  intros Hx. apply String.eqb_neq in Hx.
  unfold route. cbn. rewrite Hx. cbn. done.
Qed.

Section ClientProperties.
Variable str_int : Z -> string.
Variable int_param : string -> option Z.
Variable env : Env.

(** X13: the paths the client asks for are not paths of the application.
    Uploading, listing an album, fetching the starred image and starring an
    image are all answered [404 Not Found] by the router, before any handler
    runs: nothing is uploaded, the list is the error document, the file saved
    as [starred.jpeg] is the error document, and the status returned for a
    starring is 404. *)
Theorem client_paths_not_routed (w : World) (album_id image_id : Z) (img : list byte) :
  str_int album_id <> "" ->
  add_image str_int int_param env album_id img w
  = (Returned tt, [StatusCode 404; JsonDump (JDetail "Not Found")], w)
  /\ get_album_images str_int int_param env album_id w
     = (Returned (JDetail "Not Found"), w)
  /\ open_starred_image str_int int_param env album_id w
     = ([WriteFile "starred.jpeg" (detail "Not Found"); System "open starred.jpeg"], w)
  /\ set_starred_image str_int int_param env album_id image_id w = (404, w).
Proof.
  intros Hx.
  unfold add_image, get_album_images, open_starred_image, set_starred_image, send,
    serve.
  cbn [req_method req_path add_image_request get_album_images_request
       open_starred_image_request set_starred_image_request].
  by rewrite !route_images_album, !route_images_album_starred.
Qed.

(** X14: fetching an image by its key asks for a path that the
    application only knows for DELETE: the answer is [405 Method Not
    Allowed], and that is what is saved as [image.jpeg]. *)
Theorem client_open_image_by_id (w : World) (image_id : Z) :
  str_int image_id <> "" ->
  open_image_by_id str_int int_param env image_id w
  = ([WriteFile "image.jpeg" (detail "Method Not Allowed"); System "open image.jpeg"],
     w).
Proof.
  intros Hx. destruct (route_images_id _ Hx) as [Hget _].
  unfold open_image_by_id, send, serve.
  cbn [req_method req_path open_image_by_id_request]. by rewrite Hget.
Qed.

(** X15: deleting is the one request of the client that reaches its
    handler.  The row is deleted if there is one, and the client reports a
    problem in every case, because it expects a 204 and the application
    answers 200, or 404, or 500 for a key that does not fit 64 bits. *)
Theorem client_delete_reports_problem (w : World) (image_id : Z) :
  str_int image_id <> "" ->
  int_param (str_int image_id) = Some image_id ->
  exists res,
    client_delete_image str_int int_param env image_id w
    = ([Message "There was a problem with deleting that image.";
        ResponseText (body res)],
       after (DeleteImage image_id) w)
    /\ (get_row image_id (table w) <> None -> res = mkResponse 200 (Json JOk))
    /\ (int64 image_id = true -> get_row image_id (table w) = None ->
        res = mkResponse 404 (detail "Image not found"))
    /\ (int64 image_id = false ->
        res = mkResponse 500 (PlainText "Internal Server Error")).
Proof.
  intros Hx Hint. destruct (route_images_id _ Hx) as [_ Hdel].
  unfold client_delete_image, send, serve.
  cbn [req_method req_path delete_image_request after]. rewrite Hdel. cbn.
  rewrite Hint, delete_image_run.
  destruct (int64 image_id) eqn:Hi64; cbn [negb].
  - destruct (get_row image_id (table w)); cbn.
    + exists (mkResponse 200 (Json JOk)). by repeat split.
    + exists (mkResponse 404 (detail "Image not found")). by repeat split.
  - exists (mkResponse 500 (PlainText "Internal Server Error")). cbn.
    split; [done|]. split; [|done].
    destruct (get_row image_id (table w)) as [r|] eqn:E; [|done].
    apply get_row_Some in E as [[Hr _]%int64_table <-]. congruence.
Qed.

(** X16: [remove_all_images] removes nothing.  The list it asks for is
    the [404] document, a JSON object; the loop binds [row] to its key
    ["detail"], and indexing that string with ["id"] raises a [TypeError]
    before any DELETE is sent. *)
Theorem client_remove_all_images_raises (w : World) (album_id : Z) :
  str_int album_id <> "" ->
  remove_all_images str_int int_param env album_id w = (Raised TypeError, [], w).
Proof.
  intros Hx. unfold remove_all_images, get_album_images, send, serve.
  cbn [req_method req_path get_album_images_request].
  by rewrite !route_images_album.
Qed.
End ClientProperties.

Lemma client_paths_not_routed_witness :
  set_starred_image decimal read_decimal (Example.env "00000000000000cc") 3 2
                    Example.two_images
  = (404, Example.two_images).
Proof.
  apply (client_paths_not_routed decimal read_decimal (Example.env "00000000000000cc")
           Example.two_images 3 2 []).
  vm_compute. discriminate.
Defined.

Lemma client_open_image_by_id_witness :
  open_image_by_id decimal read_decimal (Example.env "00000000000000cc") 1
                   Example.two_images
  = ([WriteFile "image.jpeg" (detail "Method Not Allowed"); System "open image.jpeg"],
     Example.two_images).
Proof.
  apply client_open_image_by_id. vm_compute. discriminate.
Defined.

Lemma client_delete_reports_problem_witness :
  client_delete_image decimal read_decimal (Example.env "00000000000000cc") 1
                      Example.two_images
  = ([Message "There was a problem with deleting that image.";
      ResponseText (Json JOk)],
     Example.unstarred_album).
Proof.
  destruct (client_delete_reports_problem decimal read_decimal
              (Example.env "00000000000000cc") Example.two_images 1)
    as (res & Hrun & Hsome & _).
  - vm_compute. discriminate.
  - vm_compute. reflexivity.
  - rewrite Hrun, Hsome; [reflexivity|]. vm_compute. discriminate.
Defined.

Lemma client_remove_all_images_raises_witness :
  remove_all_images decimal read_decimal (Example.env "00000000000000cc") 3
                    Example.two_images
  = (Raised TypeError, [], Example.two_images).
Proof.
  apply client_remove_all_images_raises. vm_compute. discriminate.
Defined.

(** * The starred image over HTTP *)



